(** * Bank Guard: the transaction firewall, the policy gate, the audit log,
      the secret isolator and the prompt sanitizer

    A shallow embedding of the TypeScript guards and the properties of
    their decision logic.  BigInt values are [Z]; JavaScript numbers
    that only ever hold integers (timestamps, lengths, day indices) are
    [Z] or [nat]; optional properties are [option]. *)

From Stdlib Require Import ZArith NArith List String Ascii Bool Lia.
From Stdlib Require Import DecimalString Permutation Sorted.
Import ListNotations.

Local Open Scope string_scope.
Local Open Scope Z_scope.

(** ** JavaScript helpers shared by the guards *)

Module Js.

(** Truthiness of the values the guards test with [if (x)] or [x || d]. *)
Definition truthy_string (s : string) : bool :=
  match s with EmptyString => false | _ => true end.

Definition truthy_bigint (z : Z) : bool := negb (z =? 0).

Definition truthy_opt {A} (t : A -> bool) (o : option A) : bool :=
  match o with Some a => t a | None => false end.

(** [x ?? d] *)
Definition nullish {A} (o : option A) (d : A) : A :=
  match o with Some a => a | None => d end.

(** [String.prototype.toLowerCase], exact on code units below 128 (the
    addresses and selectors the firewall compares are hexadecimal). *)
Definition lower_ascii (c : ascii) : ascii :=
  let n := nat_of_ascii c in
  if (Nat.leb 65 n && Nat.leb n 90)%bool then ascii_of_nat (n + 32) else c.

Fixpoint toLowerCase (s : string) : string :=
  match s with
  | EmptyString => EmptyString
  | String c r => String (lower_ascii c) (toLowerCase r)
  end.

(** [BigInt.prototype.toString()] *)
Definition bigint_toString (z : Z) : string :=
  NilZero.string_of_int (Z.to_int z).

(** ['c'.repeat(n)] *)
Fixpoint repeat_char (c : ascii) (n : nat) : string :=
  match n with O => EmptyString | S k => String c (repeat_char c k) end.

(** [s.padStart(n, c)] for a one-character filler *)
Definition padStart (n : nat) (c : ascii) (s : string) : string :=
  repeat_char c (n - String.length s) ++ s.

(** [s.slice(a, b)] for [0 <= a <= b] *)
Definition slice (a b : nat) (s : string) : string :=
  String.substring a (b - a) s.

End Js.

(** ** viem's unit conversions, as the guards use them *)

Module Viem.

(** [s.replace(/(0+)$/, '')] *)
Fixpoint strip_trailing_zeros (s : string) : string :=
  match s with
  | EmptyString => EmptyString
  | String c r =>
      match strip_trailing_zeros r with
      | EmptyString => if Ascii.eqb c "0"%char then EmptyString else String c EmptyString
      | r' => String c r'
      end
  end.

(** [formatUnits(value, decimals)] *)
Definition formatUnits (value : Z) (decimals : nat) : string :=
  let negative := value <? 0 in
  let display := Js.padStart decimals "0"%char (Js.bigint_toString (Z.abs value)) in
  let n := String.length display in
  let integer := Js.slice 0 (n - decimals) display in
  let fraction := strip_trailing_zeros (Js.slice (n - decimals) n display) in
  (if negative then "-" else "")
  ++ (if Js.truthy_string integer then integer else "0")
  ++ (if Js.truthy_string fraction then "." ++ fraction else "").

Definition formatEther (wei : Z) : string := formatUnits wei 18.

End Viem.

(** ** The transaction firewall *)

Module Firewall.

Definition Address := string.

(** An optional property of an object literal: the spread [...config]
    copies a property that is present and [undefined], and leaves the
    default alone only when the property is absent. *)
Inductive prop (A : Type) : Type :=
| Absent
| Undefined
| Present (a : A).
Arguments Absent {A}.
Arguments Undefined {A}.
Arguments Present {A} a.

Definition prop_value {A} (p : prop A) : option A :=
  match p with Present a => Some a | _ => None end.

(** [{ k: d, ...config }] for one property [k] *)
Definition spread_over {A} (d : option A) (p : prop A) : option A :=
  match p with Absent => d | Undefined => None | Present a => Some a end.

Inductive Chain := base | mainnet.

(** The argument of the constructor. *)
Record FirewallOptions := {
  opt_maxDailySpend : Z;
  opt_maxPerTxSpend : Z;
  opt_allowedContracts : prop (list Address);
  opt_blockedContracts : prop (list Address);
  opt_maxGasLimit : prop Z;
  opt_requireSimulation : prop bool;
  opt_rpcUrl : prop string;
  opt_chain : prop Chain
}.

(** [this.config] *)
Record FirewallConfig := {
  maxDailySpend : Z;
  maxPerTxSpend : Z;
  allowedContracts : option (list Address);
  blockedContracts : option (list Address);
  maxGasLimit : option Z;
  requireSimulation : option bool;
  rpcUrl : option string;
  chain : option Chain
}.

Definition make_config (o : FirewallOptions) : FirewallConfig :=
  {| maxDailySpend := opt_maxDailySpend o;
     maxPerTxSpend := opt_maxPerTxSpend o;
     allowedContracts := prop_value (opt_allowedContracts o);
     blockedContracts := prop_value (opt_blockedContracts o);
     maxGasLimit :=
       spread_over (Some (Js.nullish (prop_value (opt_maxGasLimit o)) 500000))
                   (opt_maxGasLimit o);
     requireSimulation :=
       spread_over (Some (Js.nullish (prop_value (opt_requireSimulation o)) true))
                   (opt_requireSimulation o);
     rpcUrl := prop_value (opt_rpcUrl o);
     chain := prop_value (opt_chain o) |}.

Record SimulationResult := {
  success : bool;
  gasUsed : option Z;
  returnData : option string;
  error : option string
}.

Record FirewallResult := {
  allowed : bool;
  reason : option string;
  warnings : list string;
  simulation : option SimulationResult;
  valueWei : option Z
}.

Record TransactionRequest := {
  to : option Address;
  value : option Z;
  data : option string;
  gas : option Z;
  from : option Address
}.

(** What [client.call] does with a request: it resolves with the return
    data or throws an error that may carry a message. *)
Inductive CallOutcome :=
| Resolved (returned : option string)
| Thrown (message : option string).

(** The world one [check] call runs in: the clock and the RPC node. *)
Record Env := {
  now : Z;
  client_call : TransactionRequest -> CallOutcome
}.

(** The mutable fields of a firewall. *)
Record SpendState := {
  dailySpent : Z;
  lastResetDay : Z
}.

Definition initial_state : SpendState :=
  {| dailySpent := 0; lastResetDay := 0 |}.

Definition KNOWN_MALICIOUS : list Address := [].

Definition SAFE_CONTRACTS : list Address :=
  [ "0x4200000000000000000000000000000000000006";
    "0x833589fCD6eDb6E08f4c7C32D4f71b54bdA02913" ].

Definition ms_per_day : Z := 24 * 60 * 60 * 1000.

(** [Math.floor(Date.now() / (24 * 60 * 60 * 1000))] *)
Definition day_index (t : Z) : Z := t / ms_per_day.

Definition resetDailyIfNeeded (t : Z) (st : SpendState) : SpendState :=
  let today := day_index t in
  if negb (today =? lastResetDay st)
  then {| dailySpent := 0; lastResetDay := today |}
  else st.

Definition resetDailySpend (t : Z) (st : SpendState) : SpendState :=
  {| dailySpent := 0; lastResetDay := day_index t |}.

Definition getRemainingDaily (cfg : FirewallConfig) (t : Z) (st : SpendState)
  : Z * SpendState :=
  let st' := resetDailyIfNeeded t st in
  (maxDailySpend cfg - dailySpent st', st').

Definition simulate (env : Env) (tx : TransactionRequest) : SimulationResult :=
  match client_call env tx with
  | Resolved d =>
      {| success := true; gasUsed := None; returnData := d; error := None |}
  | Thrown m =>
      {| success := false; gasUsed := None; returnData := None;
         error := Some (if Js.truthy_opt Js.truthy_string m
                        then Js.nullish m "" else "Simulation failed") |}
  end.

(** The two literals [checkCalldata] puts in front of its warnings, byte
    for byte as the source file holds them. *)
Definition warning_sign : string :=
  string_of_list_ascii
    (map ascii_of_nat [195; 162; 197; 161; 194; 160; 195; 175; 194; 184; 32])%nat.

Definition alarm_sign : string :=
  string_of_list_ascii
    (map ascii_of_nat [195; 176; 197; 184; 197; 161; 194; 168; 32])%nat.

Definition SUSPICIOUS_SELECTORS : list (string * string) :=
  [ ("0x095ea7b3", "approve - check spender address carefully");
    ("0xa22cb465", "setApprovalForAll - grants full NFT access");
    ("0x42842e0e", "safeTransferFrom (NFT)");
    ("0x23b872dd", "transferFrom - ensure authorized") ].

Fixpoint lookup (k : string) (t : list (string * string)) : option string :=
  match t with
  | [] => None
  | (k', v) :: r => if String.eqb k k' then Some v else lookup k r
  end.

Definition checkCalldata (d : string) : list string :=
  let selector := Js.toLowerCase (Js.slice 0 10 d) in
  let warnings :=
    match lookup selector SUSPICIOUS_SELECTORS with
    | Some text => [warning_sign ++ text]
    | None => []
    end in
  if (String.eqb selector "0x095ea7b3" && Nat.leb 138 (String.length d))%bool
  then
    let amount := Js.slice 74 138 d in
    if String.eqb amount (Js.repeat_char "f"%char 64)
    then warnings ++
         [alarm_sign ++ "UNLIMITED APPROVAL detected - consider using exact amount"]
    else warnings
  else warnings.

Definition in_list (target : Address) (l : list Address) : bool :=
  existsb (fun addr => String.eqb (Js.toLowerCase addr) target) l.

Definition reject (why : string) (ws : list string)
    (sim : option SimulationResult) (v : Z) : FirewallResult :=
  {| allowed := false; reason := Some why; warnings := ws;
     simulation := sim; valueWei := Some v |}.

(** The allow/deny list step; [Some why] is a rejection. *)
Definition check_lists (cfg : FirewallConfig) (tx : TransactionRequest)
  : option string :=
  match to tx with
  | Some addr =>
      if Js.truthy_string addr then
        let target := Js.toLowerCase addr in
        if in_list target (KNOWN_MALICIOUS ++ Js.nullish (blockedContracts cfg) [])
        then Some ("Contract " ++ addr ++ " is on blocklist")
        else
          match allowedContracts cfg with
          | Some (a :: l) =>
              if in_list target (SAFE_CONTRACTS ++ a :: l) then None
              else Some ("Contract " ++ addr ++ " is not on allowlist")
          | _ => None
          end
      else None
  | None => None
  end.

(** The gas step: [tx.gas && maxGasLimit && tx.gas > maxGasLimit]. *)
Definition gas_exceeded (cfg : FirewallConfig) (tx : TransactionRequest)
  : option (Z * Z) :=
  match gas tx, maxGasLimit cfg with
  | Some g, Some m =>
      if (Js.truthy_bigint g && Js.truthy_bigint m && (g >? m))%bool
      then Some (g, m) else None
  | _, _ => None
  end.

Definition must_simulate (cfg : FirewallConfig) (tx : TransactionRequest) : bool :=
  (Js.truthy_opt (fun b : bool => b) (requireSimulation cfg)
   && Js.truthy_opt Js.truthy_string (to tx))%bool.

Definition calldata_warnings (tx : TransactionRequest) : list string :=
  match data tx with
  | Some d => if Js.truthy_string d then checkCalldata d else []
  | None => []
  end.

(** The two spend-limit steps; [Some why] is a rejection. *)
Definition limit_checks (cfg : FirewallConfig) (st : SpendState) (v : Z)
  : option string :=
  if v >? maxPerTxSpend cfg then
    Some ("Transaction value " ++ Viem.formatEther v
          ++ " ETH exceeds per-tx limit "
          ++ Viem.formatEther (maxPerTxSpend cfg) ++ " ETH")
  else if dailySpent st + v >? maxDailySpend cfg then
    Some ("Transaction would exceed daily limit. Spent: "
          ++ Viem.formatEther (dailySpent st)
          ++ ", Tx: " ++ Viem.formatEther v
          ++ ", Limit: " ++ Viem.formatEther (maxDailySpend cfg))
  else None.

(** [check]: the result and the firewall's fields after the call. *)
Definition check (cfg : FirewallConfig) (env : Env) (st0 : SpendState)
    (tx : TransactionRequest) : FirewallResult * SpendState :=
  let st := resetDailyIfNeeded (now env) st0 in
  let v := Js.nullish (value tx) 0 in
  match limit_checks cfg st v with
  | Some why => (reject why [] None v, st)
  | None =>
    match check_lists cfg tx with
    | Some why => (reject why [] None v, st)
    | None =>
        match gas_exceeded cfg tx with
        | Some (g, m) =>
            (reject ("Gas limit " ++ Js.bigint_toString g
                     ++ " exceeds maximum " ++ Js.bigint_toString m) [] None v, st)
        | None =>
            let sim := if must_simulate cfg tx
                       then Some (simulate env tx) else None in
            match sim with
            | Some {| success := false; error := e |} =>
                (reject ("Simulation failed: " ++ Js.nullish e "undefined")
                        [] sim v, st)
            | _ =>
                ({| allowed := true; reason := None;
                    warnings := calldata_warnings tx;
                    simulation := sim; valueWei := Some v |},
                 {| dailySpent := dailySpent st + v;
                    lastResetDay := lastResetDay st |})
            end
        end
    end
  end.

(** A run of [check] calls on one firewall, oldest first. *)
Fixpoint run (cfg : FirewallConfig) (st : SpendState)
    (calls : list (Env * TransactionRequest))
  : list (FirewallResult * TransactionRequest) * SpendState :=
  match calls with
  | [] => ([], st)
  | (env, tx) :: rest =>
      let '(r, st1) := check cfg env st tx in
      let '(rs, st2) := run cfg st1 rest in
      ((r, tx) :: rs, st2)
  end.

(** The sum of the values of the calls that were allowed. *)
Fixpoint accepted_sum (rs : list (FirewallResult * TransactionRequest)) : Z :=
  match rs with
  | [] => 0
  | (r, tx) :: rest =>
      (if allowed r then Js.nullish (value tx) 0 else 0) + accepted_sum rest
  end.

Definition any_accepted (rs : list (FirewallResult * TransactionRequest)) : bool :=
  existsb (fun p => allowed (fst p)) rs.

Definition same_day (d : Z) (calls : list (Env * TransactionRequest)) : Prop :=
  Forall (fun c => day_index (now (fst c)) = d) calls.

(** What the accumulator counts for day [d]: a value left from another
    day is dropped by the next [resetDailyIfNeeded]. *)
Definition spent_on (d : Z) (st : SpendState) : Z :=
  if d =? lastResetDay st then dailySpent st else 0.

(** The calldata selects one of the operations of the table. *)
Definition is_sensitive (d : string) : bool :=
  existsb (fun kv => String.eqb (Js.toLowerCase (Js.slice 0 10 d)) (fst kv))
          SUSPICIOUS_SELECTORS.

(** The calldata is [approve(spender, 2^256 - 1)] as [checkCalldata]
    recognises it. *)
Definition is_unlimited_approval (d : string) : bool :=
  (String.eqb (Js.toLowerCase (Js.slice 0 10 d)) "0x095ea7b3"
   && Nat.leb 138 (String.length d)
   && String.eqb (Js.slice 74 138 d) (Js.repeat_char "f"%char 64))%bool.

Definition per_tx_reason (cfg : FirewallConfig) (v : Z) : string :=
  "Transaction value " ++ Viem.formatEther v ++ " ETH exceeds per-tx limit "
  ++ Viem.formatEther (maxPerTxSpend cfg) ++ " ETH".

Definition daily_reason (cfg : FirewallConfig) (spent v : Z) : string :=
  "Transaction would exceed daily limit. Spent: " ++ Viem.formatEther spent
  ++ ", Tx: " ++ Viem.formatEther v
  ++ ", Limit: " ++ Viem.formatEther (maxDailySpend cfg).

(** Sample data: a policy of 0.05 ETH per transaction and 0.5 ETH per
    day, a node that accepts every call, and a few transactions. *)
Module Samples.

Definition ether : Z := 10 ^ 18.

Definition strict_cfg : FirewallConfig :=
  make_config
    {| opt_maxDailySpend := ether / 2;
       opt_maxPerTxSpend := ether / 20;
       opt_allowedContracts := Undefined;
       opt_blockedContracts := Undefined;
       opt_maxGasLimit := Absent;
       opt_requireSimulation := Present true;
       opt_rpcUrl := Undefined;
       opt_chain := Present base |}.

Definition weth : Address := "0x4200000000000000000000000000000000000006".

Definition node_ok : TransactionRequest -> CallOutcome :=
  fun _ => Resolved (Some "0x").

(** Noon of 2 January 1970. *)
Definition noon : Env := {| now := 129600000; client_call := node_ok |}.

Definition pay (v : Z) : TransactionRequest :=
  {| to := Some weth; value := Some v; data := None; gas := None; from := None |}.

(** [approve(spender, 2^256 - 1)] *)
Definition unlimited_approve_data : string :=
  "0x095ea7b3"
  ++ "000000000000000000000000833589fcd6edb6e08f4c7c32d4f71b54bda02913"
  ++ Js.repeat_char "f"%char 64.

Definition approve_tx : TransactionRequest :=
  {| to := Some weth; value := None; data := Some unlimited_approve_data;
     gas := Some 60000; from := None |}.

(** A firewall with an allowlist and a blocklist that both name one
    contract, a node that refuses every call, and a deployment. *)
Definition usdc_upper : Address := "0X833589FCD6EDB6E08F4C7C32D4F71B54BDA02913".

Definition drainer : Address := "0xDeaDbeefdEAdbeefdEadbEEFdeadbeEFdEaDbeeF".

Definition listed_options : FirewallOptions :=
  {| opt_maxDailySpend := ether;
     opt_maxPerTxSpend := ether / 10;
     opt_allowedContracts := Present [drainer];
     opt_blockedContracts := Present [Js.toLowerCase drainer];
     opt_maxGasLimit := Absent;
     opt_requireSimulation := Absent;
     opt_rpcUrl := Absent;
     opt_chain := Absent |}.

Definition listed_cfg : FirewallConfig := make_config listed_options.

(** An allowlist that is there and empty. *)
Definition open_cfg : FirewallConfig :=
  make_config
    {| opt_maxDailySpend := ether;
       opt_maxPerTxSpend := ether;
       opt_allowedContracts := Present [];
       opt_blockedContracts := Absent;
       opt_maxGasLimit := Absent;
       opt_requireSimulation := Absent;
       opt_rpcUrl := Absent;
       opt_chain := Absent |}.

Definition node_down : TransactionRequest -> CallOutcome :=
  fun _ => Thrown (Some "execution reverted").

Definition night : Env := {| now := 129600000; client_call := node_down |}.

Definition pay_to (a : Address) (v : Z) : TransactionRequest :=
  {| to := Some a; value := Some v; data := None; gas := None; from := None |}.

Definition deploy : TransactionRequest :=
  {| to := None; value := None; data := Some "0x60806040"; gas := None;
     from := None |}.

Definition heavy : TransactionRequest :=
  {| to := Some weth; value := None; data := None; gas := Some 500001;
     from := None |}.

End Samples.

End Firewall.

(** ** The audit logger *)

Module Audit.

Inductive StorageType := memory | file.

(** The argument of the constructor. *)
Record AuditOptions := {
  opt_storage : StorageType;
  opt_filePath : option string;
  opt_includeTimestamps : option bool;
  opt_maxEntries : option Z
}.

(** [this.config] *)
Record AuditConfig := {
  storage : StorageType;
  filePath : string;
  includeTimestamps : bool;
  maxEntries : Z
}.

Definition make_config (o : AuditOptions) : AuditConfig :=
  {| storage := opt_storage o;
     filePath := if Js.truthy_opt Js.truthy_string (opt_filePath o)
                 then Js.nullish (opt_filePath o) ""
                 else "./bankr-guard-audit.json";
     includeTimestamps := Js.nullish (opt_includeTimestamps o) true;
     maxEntries := if Js.truthy_opt Js.truthy_bigint (opt_maxEntries o)
                   then Js.nullish (opt_maxEntries o) 0
                   else 10000 |}.

Record FirewallSummary := { fw_allowed : bool; fw_reason : option string }.
Record SanitizerSummary := { threatsDetected : Z; san_modified : bool }.
Record IsolatorSummary := { secretsRedacted : Z }.

(** The values the guard puts in [details]. *)
Inductive Detail :=
| DUndefined
| DString (s : string)
| DBool (b : bool)
| DStrings (l : list string).

Record AuditEntry := {
  id : string;
  timestamp : Z;
  action : string;
  details : list (string * Detail);
  txSignature : option string;
  firewallResult : option FirewallSummary;
  sanitizerResult : option SanitizerSummary;
  isolatorResult : option IsolatorSummary
}.

(** [Omit<AuditEntry, 'id' | 'timestamp'>] *)
Record LogInput := {
  in_action : string;
  in_details : list (string * Detail);
  in_txSignature : option string;
  in_firewallResult : option FirewallSummary;
  in_sanitizerResult : option SanitizerSummary;
  in_isolatorResult : option IsolatorSummary
}.

Record AuditFilter := {
  by_action : option string;
  fromTimestamp : option Z;
  toTimestamp : option Z;
  by_txSignature : option string;
  limit : option Z
}.

(** *** [Map<string, AuditEntry>]: keys in insertion order *)

Definition Store := list (string * AuditEntry).

Fixpoint map_set (k : string) (v : AuditEntry) (m : Store) : Store :=
  match m with
  | [] => [(k, v)]
  | (k', v') :: r =>
      if String.eqb k k' then (k, v) :: r else (k', v') :: map_set k v r
  end.

Definition map_delete (k : string) (m : Store) : Store :=
  filter (fun kv => negb (String.eqb k (fst kv))) m.

Fixpoint map_get (k : string) (m : Store) : option AuditEntry :=
  match m with
  | [] => None
  | (k', v) :: r => if String.eqb k k' then Some v else map_get k r
  end.

Definition map_has (k : string) (m : Store) : bool :=
  existsb (fun kv => String.eqb k (fst kv)) m.

Definition map_values (m : Store) : list AuditEntry := map snd m.

Definition map_size (m : Store) : Z := Z.of_nat (List.length m).

(** *** [Array.prototype.sort(cmp)]: a stable sort; [a] goes before [b]
    when [cmp a b] is negative and ties keep their order *)

Section Sort.
Context {A : Type} (cmp : A -> A -> Z).

Fixpoint insert_by (x : A) (l : list A) : list A :=
  match l with
  | [] => [x]
  | y :: r => if cmp x y <=? 0 then x :: y :: r else y :: insert_by x r
  end.

Fixpoint sort_by (l : list A) : list A :=
  match l with
  | [] => []
  | x :: r => insert_by x (sort_by r)
  end.

End Sort.

(** [l.slice(0, n)] for an integer [n] *)
Definition slice_to (n : Z) {A} (l : list A) : list A :=
  if n <? 0 then firstn (Z.to_nat (Z.of_nat (List.length l) + n)) l
  else firstn (Z.to_nat n) l.

Definition oldest_first (a b : AuditEntry) : Z := timestamp a - timestamp b.
Definition newest_first (a b : AuditEntry) : Z := timestamp b - timestamp a.

(** The fields of a logger: the map and what the audit file holds. *)
Record Logger := {
  entries : Store;
  saved : option (list AuditEntry)
}.

Definition new_logger : Logger := {| entries := []; saved := None |}.

(** What one call reads from outside: [randomUUID()], [Date.now()] and
    whether the disk takes the write. *)
Record Env := {
  uuid : string;
  now : Z;
  write_ok : bool
}.

(** [saveToFile]: a failed write is reported and swallowed. *)
Definition saveToFile (cfg : AuditConfig) (env : Env) (lg : Logger) : Logger :=
  match storage cfg with
  | memory => lg
  | file =>
      if write_ok env
      then {| entries := entries lg; saved := Some (map_values (entries lg)) |}
      else lg
  end.

(** [loadFromFile], given what was read and parsed. *)
Definition loadFromFile (read : option (list AuditEntry)) (lg : Logger) : Logger :=
  match read with
  | Some es =>
      {| entries := fold_left (fun m e => map_set (id e) e m) es (entries lg);
         saved := saved lg |}
  | None => lg
  end.

Definition evict_oldest (m : Store) : Store :=
  match sort_by oldest_first (map_values m) with
  | oldest :: _ => map_delete (id oldest) m
  | [] => m
  end.

Definition full_entry (cfg : AuditConfig) (env : Env) (e : LogInput) : AuditEntry :=
  {| id := uuid env;
     timestamp := if includeTimestamps cfg then now env else 0;
     action := in_action e;
     details := in_details e;
     txSignature := in_txSignature e;
     firewallResult := in_firewallResult e;
     sanitizerResult := in_sanitizerResult e;
     isolatorResult := in_isolatorResult e |}.

(** [log]: the returned id and the logger after the call. *)
Definition log (cfg : AuditConfig) (env : Env) (e : LogInput) (lg : Logger)
  : string * Logger :=
  let fullEntry := full_entry cfg env e in
  let m := if map_size (entries lg) >=? maxEntries cfg
           then evict_oldest (entries lg) else entries lg in
  let lg1 := {| entries := map_set (uuid env) fullEntry m; saved := saved lg |} in
  (uuid env, saveToFile cfg env lg1).

Definition logTransactionCheck (cfg : AuditConfig) (env : Env)
    (act : string) (det : list (string * Detail)) (fw : FirewallSummary)
    (sig : option string) (lg : Logger) : string * Logger :=
  log cfg env
      {| in_action := act; in_details := det; in_txSignature := sig;
         in_firewallResult := Some fw; in_sanitizerResult := None;
         in_isolatorResult := None |} lg.

Definition getLog (k : string) (lg : Logger) : option AuditEntry :=
  map_get k (entries lg).

Definition opt_string_eqb (a b : option string) : bool :=
  match a, b with
  | Some x, Some y => String.eqb x y
  | None, None => true
  | _, _ => false
  end.

(** One [if (filter.k) entries = ...] step of [getLogs]. *)
Definition narrow {K} (t : K -> bool) (o : option K)
    (f : K -> list AuditEntry -> list AuditEntry) (l : list AuditEntry)
  : list AuditEntry :=
  match o with
  | Some k => if t k then f k l else l
  | None => l
  end.

Definition apply_filter (f : AuditFilter) (l : list AuditEntry) : list AuditEntry :=
  let l := narrow Js.truthy_string (by_action f)
             (fun a => filter (fun e => String.eqb (action e) a)) l in
  let l := narrow Js.truthy_bigint (fromTimestamp f)
             (fun t => filter (fun e => timestamp e >=? t)) l in
  let l := narrow Js.truthy_bigint (toTimestamp f)
             (fun t => filter (fun e => timestamp e <=? t)) l in
  let l := narrow Js.truthy_string (by_txSignature f)
             (fun g => filter (fun e => opt_string_eqb (txSignature e) (Some g))) l in
  narrow Js.truthy_bigint (limit f) (fun n => slice_to n) l.

Definition getLogs (filter : option AuditFilter) (lg : Logger) : list AuditEntry :=
  let l := map_values (entries lg) in
  let l := match filter with Some f => apply_filter f l | None => l end in
  sort_by newest_first l.

Definition clear (cfg : AuditConfig) (env : Env) (lg : Logger) : Logger :=
  saveToFile cfg env {| entries := []; saved := saved lg |}.

Definition logSanitization (cfg : AuditConfig) (env : Env)
    (inputPreview : string) (threats : Z) (modified : bool) (lg : Logger)
  : string * Logger :=
  log cfg env
      {| in_action := "sanitize";
         in_details := [("inputPreview", DString (Js.slice 0 100 inputPreview))];
         in_txSignature := None; in_firewallResult := None;
         in_sanitizerResult :=
           Some {| threatsDetected := threats; san_modified := modified |};
         in_isolatorResult := None |} lg.

Definition logRedaction (cfg : AuditConfig) (env : Env)
    (redacted : Z) (types : list string) (lg : Logger) : string * Logger :=
  log cfg env
      {| in_action := "redact";
         in_details := [("types", DStrings types)];
         in_txSignature := None; in_firewallResult := None;
         in_sanitizerResult := None;
         in_isolatorResult := Some {| secretsRedacted := redacted |} |} lg.

(** *** [getStats] *)

(** What a property of [byAction] holds: a number, or the string that
    [+ 1] makes of a member of [Object.prototype]. *)
Inductive Count :=
| Num (n : Z)
| Text.

(** The own properties of the [byAction] object. *)
Definition Counts := string -> option Count.

(** The function members that an object literal inherits; [__proto__]
    is an accessor and is handled apart. *)
Definition INHERITED : list string :=
  [ "constructor"; "hasOwnProperty"; "isPrototypeOf"; "propertyIsEnumerable";
    "toLocaleString"; "toString"; "valueOf"; "__defineGetter__";
    "__defineSetter__"; "__lookupGetter__"; "__lookupSetter__" ].

Definition inherited (k : string) : bool :=
  existsb (String.eqb k) INHERITED.

(** [byAction[k] = (byAction[k] || 0) + 1] *)
Definition bump (k : string) (own : Counts) : Counts :=
  let next :=
    match own k with
    | Some (Num n) => if Js.truthy_bigint n then Num (n + 1) else Num 1
    | Some Text => Text
    | None => if inherited k then Text else Num 1
    end in
  if String.eqb k "__proto__" then own
  else fun k' => if String.eqb k' k then Some next else own k'.

Record Stats := {
  totalEntries : Z;
  byAction : Counts;
  blockedTransactions : Z;
  threatsTotal : Z;
  secretsTotal : Z
}.

Definition is_blocked (e : AuditEntry) : bool :=
  match firewallResult e with
  | Some fw => negb (fw_allowed fw)
  | None => false
  end.

(** One turn of the loop of [getStats]. *)
Definition count_entry (acc : Stats) (e : AuditEntry) : Stats :=
  {| totalEntries := totalEntries acc;
     byAction := bump (action e) (byAction acc);
     blockedTransactions :=
       if is_blocked e then blockedTransactions acc + 1
       else blockedTransactions acc;
     threatsTotal :=
       match sanitizerResult e with
       | Some r => threatsTotal acc + threatsDetected r
       | None => threatsTotal acc
       end;
     secretsTotal :=
       match isolatorResult e with
       | Some r => secretsTotal acc + secretsRedacted r
       | None => secretsTotal acc
       end |}.

Definition getStats (lg : Logger) : Stats :=
  let es := map_values (entries lg) in
  fold_left count_entry es
    {| totalEntries := Z.of_nat (List.length es);
       byAction := fun _ => None;
       blockedTransactions := 0; threatsTotal := 0; secretsTotal := 0 |}.

(** The number of the entries of a list that carry the action [a]. *)
Definition count_action (a : string) (es : list AuditEntry) : Z :=
  Z.of_nat (List.length (filter (fun e => String.eqb (action e) a) es)).

(** The order of the list that [getLogs] returns. *)
Definition newer_first (a b : AuditEntry) : Prop := timestamp a >= timestamp b.

(** The map of a logger is keyed by the ids of its entries, each once. *)
Definition store_ok (m : Store) : Prop :=
  NoDup (map fst m) /\ Forall (fun kv => fst kv = id (snd kv)) m.

(** What the specification says of a limit: the entries that pass the
    other filters are sorted newest first and the sorted list is cut to
    its first [limit] entries. *)
Definition getLogs_sort_then_limit (f : AuditFilter) (lg : Logger)
  : list AuditEntry :=
  let unlimited :=
    {| by_action := by_action f; fromTimestamp := fromTimestamp f;
       toTimestamp := toTimestamp f; by_txSignature := by_txSignature f;
       limit := None |} in
  narrow Js.truthy_bigint (limit f) (fun n => slice_to n)
         (sort_by newest_first (apply_filter unlimited (map_values (entries lg)))).

Module Samples.

Definition memory_cfg (n : Z) : AuditConfig :=
  make_config {| opt_storage := memory; opt_filePath := None;
                 opt_includeTimestamps := None; opt_maxEntries := Some n |}.

Definition note (a : string) : LogInput :=
  {| in_action := a; in_details := []; in_txSignature := None;
     in_firewallResult := None; in_sanitizerResult := None;
     in_isolatorResult := None |}.

Definition at_time (k : string) (t : Z) : Env :=
  {| uuid := k; now := t; write_ok := true |}.

(** Three calls of [log] on a new logger that keeps at most two. *)
Definition after_two : Logger :=
  snd (log (memory_cfg 2) (at_time "id-b" 2000) (note "sanitize")
        (snd (log (memory_cfg 2) (at_time "id-a" 1000) (note "redact")
                  new_logger))).

Definition only_first : AuditFilter :=
  {| by_action := None; fromTimestamp := None; toTimestamp := None;
     by_txSignature := None; limit := Some 1 |}.

End Samples.

End Audit.

(** ** The text cleaner *)

Module Cleaner.

(** A JavaScript string, as the list of its UTF-16 code units. *)
Definition text := list Z.

Definition len (t : text) : Z := Z.of_nat (List.length t).

(** A relative index of [slice], brought within [0 .. n]. *)
Definition index_from (n i : Z) : Z :=
  if i <? 0 then Z.max (n + i) 0 else Z.min i n.

(** [t.slice(a, b)] *)
Definition slice (a b : Z) (t : text) : text :=
  let from := index_from (len t) a in
  let upto := index_from (len t) b in
  firstn (Z.to_nat (upto - from)) (skipn (Z.to_nat from) t).

(** [t.slice(a)] *)
Definition slice_from (a : Z) (t : text) : text := slice a (len t) t.

(** ['...'] *)
Definition dots : text := [0x2E; 0x2E; 0x2E].

Definition truncate (t : text) (maxLength : Z) : text :=
  if len t <=? maxLength then t
  else (slice 0 (maxLength - 3) t ++ dots)%list.

Definition maskAddress (address : text) : text :=
  if len address <? 10 then address
  else (slice 0 4 address ++ dots ++ slice_from (-4) address)%list.

(** [t.replace(/c/g, r)] for one character [c] and a replacement [r]. *)
Definition replace_char (c : Z) (r : text) (t : text) : text :=
  flat_map (fun x => if x =? c then r else [x]) t.

Definition escapeSpecialChars (t : text) : text :=
  replace_char 0x60 [0x27]
    (replace_char 0x7C [0xFF5C]
      (replace_char 0x3E [0xFF1E]
        (replace_char 0x3C [0xFF1C]
          (replace_char 0x7D [0xFF5D]
            (replace_char 0x7B [0xFF5B]
              (replace_char 0x5D [0xFF3D]
                (replace_char 0x5B [0xFF3B] t))))))).

(** What the eight replacements make of one code unit. *)
Definition escape_unit (c : Z) : Z :=
  let c := if c =? 0x5B then 0xFF3B else c in
  let c := if c =? 0x5D then 0xFF3D else c in
  let c := if c =? 0x7B then 0xFF5B else c in
  let c := if c =? 0x7D then 0xFF5D else c in
  let c := if c =? 0x3C then 0xFF1C else c in
  let c := if c =? 0x3E then 0xFF1E else c in
  let c := if c =? 0x7C then 0xFF5C else c in
  if c =? 0x60 then 0x27 else c.

(** *** The character classes of UNICODE_PATTERNS *)

Definition between (a b c : Z) : bool := (a <=? c) && (c <=? b).

Definition one_of (l : list Z) (c : Z) : bool := existsb (Z.eqb c) l.

Definition ZERO_WIDTH (c : Z) : bool :=
  one_of [0x200B; 0x200C; 0x200D; 0xFEFF; 0x2060; 0x180E] c.

Definition RTL_OVERRIDE (c : Z) : bool :=
  between 0x202A 0x202E c || between 0x2066 0x2069 c.

Definition CONTROL_CHARS (c : Z) : bool :=
  between 0x00 0x08 c || one_of [0x0B; 0x0C] c || between 0x0E 0x1F c
  || one_of [0x7F] c.

Definition PRIVATE_USE (c : Z) : bool := between 0xE000 0xF8FF c.

(** TAG_CHARS is written with five hexadecimal digits after each
    backslash-u and without the [u] flag, so an escape ends after four
    digits and the class reads: U+E000, the range from the digit [0] to
    U+E007, and the letter [F]. *)
Definition TAG_CHARS (c : Z) : bool :=
  one_of [0xE000] c || between 0x30 0xE007 c || one_of [0x46] c.

Definition COMBINING (c : Z) : bool :=
  between 0x0300 0x036F c || between 0x1AB0 0x1AFF c
  || between 0x1DC0 0x1DFF c || between 0x20D0 0x20FF c
  || between 0xFE20 0xFE2F c.

(** [t.replace(/[class]/g, '')] *)
Definition strip (class : Z -> bool) (t : text) : text :=
  filter (fun c => negb (class c)) t.

(** What [replace(/([class]){min,}/g, '')] leaves of a run. *)
Definition kept_run (min : nat) (run : text) : text :=
  if Nat.leb min (List.length run) then [] else run.

(** [t.replace(/([class]){min,}/g, '')]: [run] is the run of class
    characters that ends where [t] starts. *)
Fixpoint strip_runs (class : Z -> bool) (min : nat) (run t : text) : text :=
  match t with
  | [] => kept_run min run
  | c :: r =>
      if class c then strip_runs class min (run ++ [c])%list r
      else (kept_run min run ++ c :: strip_runs class min [] r)%list
  end.

Definition stripZeroWidth (t : text) : text := strip ZERO_WIDTH t.
Definition stripRTLOverride (t : text) : text := strip RTL_OVERRIDE t.
Definition stripControlChars (t : text) : text := strip CONTROL_CHARS t.
Definition stripPrivateUse (t : text) : text := strip PRIVATE_USE t.
Definition stripTagChars (t : text) : text := strip TAG_CHARS t.
Definition normalizeCombining (t : text) : text := strip_runs COMBINING 3 [] t.

Definition stripDangerousUnicode (t : text) : text :=
  normalizeCombining
    (stripTagChars
      (stripPrivateUse
        (stripControlChars
          (stripRTLOverride
            (stripZeroWidth t))))).

(** *** normalizeWhitespace *)

(** [t.replace(/\r\n/g, '\n')] *)
Fixpoint crlf_to_lf (t : text) : text :=
  match t with
  | [] => []
  | c :: r =>
      match r with
      | d :: r' =>
          if (c =? 0x0D) && (d =? 0x0A) then 0x0A :: crlf_to_lf r'
          else c :: crlf_to_lf r
      | [] => [c]
      end
  end.

(** [t.replace(/\r/g, '\n')] *)
Definition cr_to_lf (t : text) : text := replace_char 0x0D [0x0A] t.

Definition is_blank (c : Z) : bool := one_of [0x20; 0x09] c.

(** [t.replace(/[ \t]+/g, ' ')]; [inside] says that the text before [t]
    ends in a space or a tab. *)
Fixpoint collapse_blanks (inside : bool) (t : text) : text :=
  match t with
  | [] => []
  | c :: r =>
      if is_blank c
      then if inside then collapse_blanks true r
           else 0x20 :: collapse_blanks true r
      else c :: collapse_blanks false r
  end.

(** [t.replace(/\n{3,}/g, '\n\n')]; [seen] counts the newlines that the
    text before [t] ends in. *)
Fixpoint squeeze_newlines (seen : nat) (t : text) : text :=
  match t with
  | [] => []
  | c :: r =>
      if c =? 0x0A
      then if Nat.ltb seen 2 then c :: squeeze_newlines (S seen) r
           else squeeze_newlines seen r
      else c :: squeeze_newlines 0 r
  end.

(** The white space and the line terminators that [trim] removes. *)
Definition is_space (c : Z) : bool :=
  one_of [0x09; 0x0A; 0x0B; 0x0C; 0x0D; 0x20; 0xA0; 0x1680; 0x2028; 0x2029;
          0x202F; 0x205F; 0x3000; 0xFEFF] c
  || between 0x2000 0x200A c.

Fixpoint trimStart (t : text) : text :=
  match t with
  | [] => []
  | c :: r => if is_space c then trimStart r else t
  end.

Definition trimEnd (t : text) : text := rev (trimStart (rev t)).

Definition trim (t : text) : text := trimEnd (trimStart t).

Definition normalizeWhitespace (t : text) : text :=
  trim (squeeze_newlines 0 (collapse_blanks false (cr_to_lf (crlf_to_lf t)))).

(** No two blanks in a row and no tab; [inside] as in [collapse_blanks]. *)
Fixpoint single_blanks (inside : bool) (t : text) : bool :=
  match t with
  | [] => true
  | c :: r =>
      if is_blank c then negb inside && (c =? 0x20) && single_blanks true r
      else single_blanks false r
  end.

(** No three newlines in a row; [seen] as in [squeeze_newlines]. *)
Fixpoint few_newlines (seen : nat) (t : text) : bool :=
  match t with
  | [] => true
  | c :: r =>
      if c =? 0x0A then Nat.ltb seen 2 && few_newlines (S seen) r
      else few_newlines 0 r
  end.

(** The first and the last code unit, if any, are not white space. *)
Definition trimmed (t : text) : bool :=
  match t with
  | [] => true
  | c :: _ => negb (is_space c) && negb (is_space (last t c))
  end.

(** The code units of a string literal of the source. *)
Definition units (s : string) : text :=
  map (fun c => Z.of_nat (nat_of_ascii c)) (list_ascii_of_string s).

End Cleaner.

(** ** Regular expressions, as the secret isolator uses them *)

Module Regex.
Import Cleaner.

(** The patterns, without the [u] flag: one code unit at a time. *)
Inductive re :=
| Empty
| Class (p : Z -> bool)
| Seq (a b : re)
| Alt (a b : re)
| Repeat (min : nat) (max : option nat) (a : re)
| Group (i : nat) (a : re)
| WordBoundary.

(** A position in the input: the code units before it, last first, the
    code units from it on, and the captures so far. *)
Record State := {
  before : text;
  rest : text;
  caps : list (nat * text)
}.

Definition Continuation := State -> option State.

(** The capturing groups inside a pattern. *)
Fixpoint groups (r : re) : list nat :=
  match r with
  | Seq a b | Alt a b => (groups a ++ groups b)%list
  | Repeat _ _ a => groups a
  | Group i a => i :: groups a
  | _ => []
  end.

Definition clear (gs : list nat) (x : State) : State :=
  {| before := before x; rest := rest x;
     caps := filter (fun c => negb (existsb (Nat.eqb (fst c)) gs)) (caps x) |}.

Definition position (x : State) : nat := List.length (before x).

(** RepeatMatcher for a greedy quantifier; [fuel] bounds the turns, and
    [min] plus the length of what is left of the input, plus one, is
    enough: a turn lowers [min] or moves the position. *)
Fixpoint repeat_matcher (m : State -> Continuation -> option State)
    (gs : list nat) (fuel min : nat) (max : option nat)
    (x : State) (c : Continuation) : option State :=
  match fuel with
  | O => None
  | S fuel' =>
      match max with
      | Some O => c x
      | _ =>
          let d : Continuation := fun y =>
            if Nat.eqb min 0 && Nat.eqb (position y) (position x) then None
            else repeat_matcher m gs fuel' (Nat.pred min)
                                (option_map Nat.pred max) y c in
          let xr := clear gs x in
          if Nat.eqb min 0 then
            match m xr d with
            | Some z => Some z
            | None => c x
            end
          else m xr d
      end
  end.

(** IsWordChar *)
Definition is_word (c : Z) : bool :=
  between 0x30 0x39 c || between 0x41 0x5A c || between 0x61 0x7A c
  || (c =? 0x5F).

Definition word_at (t : text) : bool :=
  match t with c :: _ => is_word c | [] => false end.

(** The code units from position [x] to position [y]. *)
Definition matched (x y : State) : text :=
  rev (firstn (position y - position x) (before y)).

Fixpoint matcher (r : re) (x : State) (c : Continuation) {struct r}
  : option State :=
  match r with
  | Empty => c x
  | Class p =>
      match rest x with
      | ch :: t =>
          if p ch
          then c {| before := ch :: before x; rest := t; caps := caps x |}
          else None
      | [] => None
      end
  | Seq a b => matcher a x (fun y => matcher b y c)
  | Alt a b =>
      match matcher a x c with
      | Some z => Some z
      | None => matcher b x c
      end
  | Repeat min max a =>
      repeat_matcher (matcher a) (groups a)
                     (min + List.length (rest x) + 1) min max x c
  | Group i a =>
      matcher a x (fun y =>
        c {| before := before y; rest := rest y;
             caps := (i, matched x y) :: caps y |})
  | WordBoundary =>
      if xorb (word_at (before x)) (word_at (rest x)) then c x else None
  end.

(** What [exec] returns. *)
Record Match := {
  index : Z;
  whole : text;
  captures : list (nat * text)
}.

(** [match[i]] *)
Fixpoint capture (i : nat) (cs : list (nat * text)) : option text :=
  match cs with
  | [] => None
  | (j, t) :: r => if Nat.eqb i j then Some t else capture i r
  end.

(** The leftmost match at or after the position, with the state at its
    end. *)
Fixpoint search (r : re) (seen : text) (t : text) : option (Match * State) :=
  let x := {| before := seen; rest := t; caps := [] |} in
  match matcher r x Some with
  | Some y =>
      Some ({| index := Z.of_nat (position x); whole := matched x y;
               captures := caps y |}, y)
  | None =>
      match t with
      | c :: t' => search r (c :: seen) t'
      | [] => None
      end
  end.

(** The matches that [while ((match = r.exec(text)) !== null)] goes
    through for a pattern with the [g] flag that matches no empty
    string: each search starts where the match before ended. *)
Fixpoint exec_from (r : re) (fuel : nat) (seen t : text) : list Match :=
  match fuel with
  | O => []
  | S fuel' =>
      match search r seen t with
      | Some (m, y) => m :: exec_from r fuel' (before y) (rest y)
      | None => []
      end
  end.

Definition exec_all (r : re) (t : text) : list Match :=
  exec_from r (S (List.length t)) [] t.

(** *** Writing patterns *)

Definition chr (c : Z) : Z -> bool := Z.eqb c.

Definition any_of (ps : list (Z -> bool)) (c : Z) : bool :=
  existsb (fun p => p c) ps.

Definition upper (c : Z) : Z := if between 0x61 0x7A c then c - 32 else c.
Definition lower (c : Z) : Z := if between 0x41 0x5A c then c + 32 else c.

(** A class under the [i] flag. Its members here are ASCII, and no code
    unit beyond ASCII is canonicalized to an ASCII one, so the letters
    are matched in both cases and nothing else changes. *)
Definition ignore_case (p : Z -> bool) (c : Z) : bool :=
  p c || p (upper c) || p (lower c).

Definition star (a : re) : re := Repeat 0 None a.
Definition plus (a : re) : re := Repeat 1 None a.
Definition maybe (a : re) : re := Repeat 0 (Some 1%nat) a.

Fixpoint seq (l : list re) : re :=
  match l with
  | [] => Empty
  | [a] => a
  | a :: r => Seq a (seq r)
  end.

Fixpoint alt (l : list re) : re :=
  match l with
  | [] => Empty
  | [a] => a
  | a :: r => Alt a (alt r)
  end.

(** The characters of a word of the pattern, under the [i] flag. *)
Definition word_i (s : string) : re :=
  seq (map (fun c => Class (ignore_case (chr c))) (units s)).

End Regex.

(** ** The secret isolator *)

Module Isolator.
Import Cleaner Regex.

(** The argument of the constructor; [redactPatterns] only feeds the
    list [this.patterns], which [redact] does not read. *)
Record IsolatorOptions := {
  opt_redactPatterns : option (list re);
  opt_allowPublicKeys : option bool;
  opt_placeholder : option text
}.

(** [this.config] *)
Record IsolatorConfig := {
  redactPatterns : list re;
  allowPublicKeys : bool;
  placeholder : text
}.

Definition truthy_text (t : text) : bool :=
  match t with [] => false | _ => true end.

Definition make_config (o : IsolatorOptions) : IsolatorConfig :=
  {| redactPatterns := Js.nullish (opt_redactPatterns o) [];
     allowPublicKeys := Js.nullish (opt_allowPublicKeys o) true;
     placeholder := if Js.truthy_opt truthy_text (opt_placeholder o)
                    then Js.nullish (opt_placeholder o) []
                    else units "[REDACTED]" |}.

(** [constructor(config = {})] without an argument *)
Definition default_config : IsolatorConfig :=
  make_config {| opt_redactPatterns := None; opt_allowPublicKeys := None;
                 opt_placeholder := None |}.

Inductive SecretType := private_key | seed_phrase | api_key | hex_key | env_var.

Definition type_name (t : SecretType) : string :=
  match t with
  | private_key => "private_key"
  | seed_phrase => "seed_phrase"
  | api_key => "api_key"
  | hex_key => "hex_key"
  | env_var => "env_var"
  end.

Record SecretMatch := {
  type : SecretType;
  position : Z;
  length : Z;
  preview : text
}.

Record RedactResult := {
  clean : text;
  redacted : bool;
  matches : list SecretMatch
}.

Definition BASE58_CHARS : text :=
  units "123456789ABCDEFGHJKLMNPQRSTUVWXYZabcdefghijkmnopqrstuvwxyz".

Definition BIP39_COMMON : list text :=
  map units
  [ "abandon"; "ability"; "able"; "abstract"; "absurd"; "abuse"; "access"
   ; "accident"; "account"; "accuse"; "achieve"; "acid"; "acoustic"
   ; "acquire"; "across"; "act"; "action"; "actor"; "actress"; "actual"
   ; "adapt"; "add"; "addict"; "address"; "adjust"; "admit"; "adult"
   ; "advance"; "advice"; "aerobic"; "affair"; "afford"; "afraid"; "again"
   ; "age"; "agent"; "agree"; "ahead"; "aim"; "air"; "airport"; "aisle"
   ; "alarm"; "album"; "alcohol"; "alert"; "alien"; "all"; "alley"; "allow"
   ; "almost"; "alone"; "alpha"; "already"; "also"; "alter"; "always"
   ; "amateur"; "amazing"; "among"; "amount"; "amused"; "analyst"; "anchor"
   ; "ancient"; "anger"; "angle"; "angry"; "animal"; "ankle"; "announce"
   ; "annual"; "another"; "answer"; "antenna"; "antique"; "anxiety"; "any"
   ; "apart"; "apology"; "appear"; "apple"; "approve"; "april"; "arch"
   ; "arctic"; "area"; "arena"; "argue"; "arm"; "armed"; "armor"; "army"
   ; "around"; "arrange"; "arrest"; "arrive"; "arrow"; "art"; "artefact"
   ; "artist"; "artwork"; "ask"; "aspect"; "assault"; "asset"; "assist"
   ; "assume"; "asthma"; "athlete"; "atom"; "attack"; "attend"; "attitude"
   ; "attract"; "auction"; "audit"; "august"; "aunt"; "author"; "auto"
   ; "autumn"; "average"; "avocado"; "avoid"; "awake"; "aware"; "away"
   ; "awesome"; "awful"; "awkward"; "axis" ].

Definition text_eqb (a b : text) : bool :=
  if list_eq_dec Z.eq_dec a b then true else false.

(** [list.includes(w)] *)
Definition includes (l : list text) (w : text) : bool := existsb (text_eqb w) l.

(** Every character of [str] is in BASE58_CHARS. *)
Definition all_base58 (str : text) : bool :=
  forallb (fun c => one_of BASE58_CHARS c) str.

Definition isLikelyPrivateKey (str : text) : bool :=
  if negb (len str =? 88) && negb (len str =? 87) then false
  else all_base58 str.

Definition isLikelyPublicKey (str : text) : bool :=
  if negb (len str =? 44) && negb (len str =? 43) then false
  else all_base58 str.

(** *** The string methods that [redact] calls *)

Fixpoint starts_with (p t : text) : bool :=
  match p, t with
  | [], _ => true
  | a :: p', b :: t' => (a =? b) && starts_with p' t'
  | _ :: _, [] => false
  end.

(** [t.indexOf(p)], as the text before the first occurrence and the
    text after it. *)
Fixpoint split_at_first (p : text) (seen t : text) : option (text * text) :=
  if starts_with p t
  then Some (rev seen, skipn (List.length p) t)
  else match t with
       | c :: t' => split_at_first p (c :: seen) t'
       | [] => None
       end.

(** GetSubstitution for a search by string: [$$], [$&], the text before
    and the text after the match; there is no capture, so a [$] before
    anything else stands for itself. *)
Fixpoint substitute (found pre post : text) (template : text) : text :=
  match template with
  | [] => []
  | d :: t' =>
      if d =? 0x24 then
        match t' with
        | c :: r =>
            if c =? 0x24 then 0x24 :: substitute found pre post r
            else if c =? 0x60 then (pre ++ substitute found pre post r)%list
            else if c =? 0x26 then (found ++ substitute found pre post r)%list
            else if c =? 0x27 then (post ++ substitute found pre post r)%list
            else d :: substitute found pre post t'
        | [] => [d]
        end
      else d :: substitute found pre post t'
  end.

(** [t.replace(p, template)] for a string [p] *)
Definition replace (p template : text) (t : text) : text :=
  match split_at_first p [] t with
  | Some (pre, post) => (pre ++ substitute p pre post template ++ post)%list
  | None => t
  end.

(** [t.toLowerCase()], exact on the ASCII letters and the white space
    that a match of the seed phrase pattern consists of. *)
Definition toLowerCase (t : text) : text := map lower t.

(** [t.split(/\s+/)]; [cur] is the piece being read and [gap] says that
    the text before [t] ends in white space. *)
Fixpoint split_space (cur : text) (gap : bool) (t : text) : list text :=
  match t with
  | [] => [cur]
  | c :: r =>
      if is_space c
      then if gap then split_space [] true r
           else cur :: split_space [] true r
      else split_space (cur ++ [c])%list false r
  end.

(** *** The four patterns of [redact] *)

Definition letter : Z -> bool := ignore_case (between 0x61 0x7A).

Definition base58 : Z -> bool :=
  any_of [between 0x31 0x39; between 0x41 0x48; between 0x4A 0x4E;
          between 0x50 0x5A; between 0x61 0x6B; between 0x6D 0x7A].

Definition hex_digit : Z -> bool :=
  any_of [between 0x30 0x39; between 0x61 0x66; between 0x41 0x46].

(** A quote, single or double. *)
Definition quote : Z -> bool := any_of [chr 0x27; chr 0x22].

(** [/\b([a-z]+\s+){11,23}[a-z]+\b/gi] *)
Definition seedPhraseRegex : re :=
  seq [ WordBoundary;
        Repeat 11 (Some 23%nat)
               (Group 1 (Seq (plus (Class letter)) (plus (Class is_space))));
        plus (Class letter);
        WordBoundary ].

(** [/[1-9A-HJ-NP-Za-km-z]{40,90}/g] *)
Definition base58Regex : re := Repeat 40 (Some 90%nat) (Class base58).

(** [/\b[0-9a-fA-F]{64}\b/g] *)
Definition hexKeyRegex : re :=
  seq [ WordBoundary; Repeat 64 (Some 64%nat) (Class hex_digit); WordBoundary ].

(** The pattern of the leaks of environment variables, with the flags
    [gi]: a word boundary, one of six names (captured), white space if
    any, [=] or [:], white space if any, a quote if any, one or more
    characters that are neither white space nor a quote (captured), and
    a quote if any. *)
Definition envRegex : re :=
  seq [ WordBoundary;
        Group 1 (alt [ word_i "PRIVATE_KEY"; word_i "SECRET_KEY";
                       word_i "API_KEY"; word_i "AUTH_TOKEN";
                       word_i "PASSWORD"; word_i "SEED_PHRASE" ]);
        star (Class is_space);
        Class (ignore_case (any_of [chr 0x3D; chr 0x3A]));
        star (Class is_space);
        maybe (Class (ignore_case quote));
        Group 2 (plus (Class (fun c =>
                   negb (ignore_case (any_of [is_space; quote]) c))));
        maybe (Class (ignore_case quote)) ].

(** *** [redact] *)

(** One detection: the entry pushed on [matches] and the replacement
    made in [clean]. *)
Definition detect (m : SecretMatch) (found template : text)
    (acc : RedactResult) : RedactResult :=
  {| clean := replace found template (clean acc);
     redacted := true;
     matches := (matches acc ++ [m])%list |}.

(** [words.length * 0.8 <= bip39Matches.length]; for the 12 to 24 words
    of a match the product in doubles compares as the exact one does. *)
Definition mostly (n_bip n_words : nat) : bool :=
  (4 * Z.of_nat n_words <=? 5 * Z.of_nat n_bip).

Definition seed_step (cfg : IsolatorConfig) (acc : RedactResult) (m : Match)
  : RedactResult :=
  let words := split_space [] false (toLowerCase (whole m)) in
  let bip39Matches := filter (includes BIP39_COMMON) words in
  if mostly (List.length bip39Matches) (List.length words) then
    detect {| type := seed_phrase; position := index m;
              length := len (whole m);
              preview := (nth 0 words (units "undefined") ++ dots
                          ++ last words (units "undefined"))%list |}
           (whole m) (placeholder cfg) acc
  else acc.

Definition base58_step (cfg : IsolatorConfig) (acc : RedactResult) (m : Match)
  : RedactResult :=
  let str := whole m in
  if allowPublicKeys cfg && isLikelyPublicKey str then acc
  else if isLikelyPrivateKey str then
    detect {| type := private_key; position := index m; length := len str;
              preview := (slice 0 4 str ++ dots ++ slice_from (-4) str)%list |}
           str (placeholder cfg) acc
  else acc.

Definition hex_step (cfg : IsolatorConfig) (acc : RedactResult) (m : Match)
  : RedactResult :=
  detect {| type := hex_key; position := index m; length := len (whole m);
            preview := (slice 0 4 (whole m) ++ dots
                        ++ slice_from (-4) (whole m))%list |}
         (whole m) (placeholder cfg) acc.

Definition env_step (cfg : IsolatorConfig) (acc : RedactResult) (m : Match)
  : RedactResult :=
  let name := Js.nullish (capture 1 (captures m)) (units "undefined") in
  detect {| type := env_var; position := index m; length := len (whole m);
            preview := (name ++ units "=...")%list |}
         (whole m) (name ++ units "=" ++ placeholder cfg)%list acc.

Definition redact (cfg : IsolatorConfig) (t : text) : RedactResult :=
  let acc := {| clean := t; redacted := false; matches := [] |} in
  let acc := fold_left (seed_step cfg) (exec_all seedPhraseRegex t) acc in
  let acc := fold_left (base58_step cfg) (exec_all base58Regex t) acc in
  let acc := fold_left (hex_step cfg) (exec_all hexKeyRegex t) acc in
  fold_left (env_step cfg) (exec_all envRegex t) acc.

Definition containsSecrets (cfg : IsolatorConfig) (t : text) : bool :=
  redacted (redact cfg t).

(** What every turn of the four loops of [redact] keeps: nothing found
    so far means nothing changed so far. *)
Definition consistent (t : text) (acc : RedactResult) : Prop :=
  (redacted acc = false -> clean acc = t /\ matches acc = []) /\
  (redacted acc = true -> matches acc <> []).

End Isolator.

(** ** The guard: the firewall, the isolator and the audit log behind
       one object *)

Module Guard.

Record GuardResult := {
  allowed : bool;
  reason : option string;
  warnings : list string;
  firewall : Firewall.FirewallResult;
  auditId : option string
}.

(** The configurations of the parts. *)
Record Parts := {
  firewall_config : Firewall.FirewallConfig;
  isolator_config : Isolator.IsolatorConfig;
  audit_config : Audit.AuditConfig
}.

(** Their mutable fields. *)
Record State := {
  spend : Firewall.SpendState;
  trail : Audit.Logger
}.

(** What one call reads from outside, for the firewall and for the log. *)
Record Env := {
  chain_env : Firewall.Env;
  log_env : Audit.Env
}.

(** The [details] that [checkTransaction] logs. *)
Definition check_details (tx : Firewall.TransactionRequest)
    (r : Firewall.FirewallResult) : list (string * Audit.Detail) :=
  [ ("to", match Firewall.to tx with
           | Some a => Audit.DString a
           | None => Audit.DUndefined
           end);
    ("value", match Firewall.value tx with
              | Some v => Audit.DString (Js.bigint_toString v)
              | None => Audit.DUndefined
              end);
    ("allowed", Audit.DBool (Firewall.allowed r)) ].

(** [checkTransaction(tx, action = 'transaction')] *)
Definition checkTransaction (g : Parts) (env : Env)
    (tx : Firewall.TransactionRequest) (action : option string) (st : State)
  : GuardResult * State :=
  let act := Js.nullish action "transaction" in
  let '(firewallResult, spend1) :=
    Firewall.check (firewall_config g) (chain_env env) (spend st) tx in
  let '(k, trail1) :=
    Audit.logTransactionCheck (audit_config g) (log_env env) act
      (check_details tx firewallResult)
      {| Audit.fw_allowed := Firewall.allowed firewallResult;
         Audit.fw_reason := Firewall.reason firewallResult |}
      None (trail st) in
  ({| allowed := Firewall.allowed firewallResult;
      reason := Firewall.reason firewallResult;
      warnings := Firewall.warnings firewallResult;
      firewall := firewallResult;
      auditId := Some k |},
   {| spend := spend1; trail := trail1 |}).

Definition getStats (st : State) : Audit.Stats := Audit.getStats (trail st).

(** What [redactOutput] returns. *)
Record Redacted := {
  clean : Cleaner.text;
  secretsRedacted : Z
}.

Definition redactOutput (g : Parts) (env : Audit.Env) (t : Cleaner.text)
    (st : State) : Redacted * State :=
  let result := Isolator.redact (isolator_config g) t in
  let trail1 :=
    if Isolator.redacted result
    then snd (Audit.logRedaction (audit_config g) env
                (Z.of_nat (List.length (Isolator.matches result)))
                (map (fun m => Isolator.type_name (Isolator.type m))
                     (Isolator.matches result))
                (trail st))
    else trail st in
  ({| clean := Isolator.clean result;
      secretsRedacted := Z.of_nat (List.length (Isolator.matches result)) |},
   {| spend := spend st; trail := trail1 |}).

(** A run of [checkTransaction] calls on one guard, oldest first. *)
Fixpoint run (g : Parts) (st : State)
    (calls : list (Env * Firewall.TransactionRequest * option string))
  : list GuardResult * State :=
  match calls with
  | [] => ([], st)
  | (env, tx, action) :: rest =>
      let '(r, st1) := checkTransaction g env tx action st in
      let '(rs, st2) := run g st1 rest in
      (r :: rs, st2)
  end.

(** The number of refusals among the results of a run. *)
Definition refused (rs : list GuardResult) : Z :=
  Z.of_nat (List.length (filter (fun r => negb (allowed r)) rs)).

(** The id that the log gives to a call of a run. *)
Definition call_id (c : Env * Firewall.TransactionRequest * option string)
  : string := Audit.uuid (log_env (fst (fst c))).

(** What [checkTransaction] hands to [log] for the decision [r]. *)
Definition logged_input (tx : Firewall.TransactionRequest)
    (action : option string) (r : Firewall.FirewallResult) : Audit.LogInput :=
  {| Audit.in_action := Js.nullish action "transaction";
     Audit.in_details := check_details tx r;
     Audit.in_txSignature := None;
     Audit.in_firewallResult :=
       Some {| Audit.fw_allowed := Firewall.allowed r;
               Audit.fw_reason := Firewall.reason r |};
     Audit.in_sanitizerResult := None;
     Audit.in_isolatorResult := None |}.

(** A guard of 0.05 ETH per transaction that keeps five log entries, and
    two calls: a payment within the limit and one above it. *)
Module Samples.

Definition parts : Parts :=
  {| firewall_config := Firewall.Samples.strict_cfg;
     isolator_config := Isolator.default_config;
     audit_config := Audit.Samples.memory_cfg 5 |}.

Definition fresh : State :=
  {| spend := Firewall.initial_state; trail := Audit.new_logger |}.

Definition at_noon (k : string) : Env :=
  {| chain_env := Firewall.Samples.noon;
     log_env := Audit.Samples.at_time k 129600000 |}.

Definition two_calls
  : list (Env * Firewall.TransactionRequest * option string) :=
  [ (at_noon "id-1", Firewall.Samples.pay (Firewall.Samples.ether / 20), None);
    (at_noon "id-2", Firewall.Samples.pay (Firewall.Samples.ether / 10),
     Some "swap") ].

End Samples.

End Guard.

(** * Properties *)

Module FirewallFacts.
Import Firewall.

Lemma reset_same_day t st :
  day_index t = lastResetDay st -> resetDailyIfNeeded t st = st.
Proof.
  intros H. unfold resetDailyIfNeeded. rewrite H, Z.eqb_refl. reflexivity.
Qed.

Lemma reset_lastResetDay t st :
  lastResetDay (resetDailyIfNeeded t st) = day_index t.
Proof.
  unfold resetDailyIfNeeded.
  destruct (day_index t =? lastResetDay st) eqn:E; simpl; [|reflexivity].
  apply Z.eqb_eq in E. congruence.
Qed.

(** What [check] does to the accumulator, case by case. *)
Lemma check_cases cfg env st tx :
  let st1 := resetDailyIfNeeded (now env) st in
  let v := Js.nullish (value tx) 0 in
  let r := fst (check cfg env st tx) in
  let st' := snd (check cfg env st tx) in
  (allowed r = false /\ st' = st1 /\ reason r <> None)
  \/ (allowed r = true /\ reason r = None
      /\ limit_checks cfg st1 v = None
      /\ st' = {| dailySpent := dailySpent st1 + v;
                  lastResetDay := lastResetDay st1 |}).
Proof.
  cbv zeta. unfold check.
  destruct (limit_checks cfg _ _) eqn:L; [left; simpl; repeat split; discriminate|].
  destruct (check_lists cfg tx); [left; simpl; repeat split; discriminate|].
  destruct (gas_exceeded cfg tx) as [[g m]|]; [left; simpl; repeat split; discriminate|].
  destruct (must_simulate cfg tx).
  - destruct (simulate env tx) as [[|] gu rd e]; simpl.
    + right; repeat split; reflexivity.
    + left; repeat split; discriminate.
  - right; simpl; repeat split; reflexivity.
Qed.

Lemma limit_checks_none cfg st v :
  limit_checks cfg st v = None <->
  v <= maxPerTxSpend cfg /\ dailySpent st + v <= maxDailySpend cfg.
Proof.
  unfold limit_checks.
  destruct (v >? maxPerTxSpend cfg) eqn:A;
    [|destruct (dailySpent st + v >? maxDailySpend cfg) eqn:B];
    split; intros H; try discriminate; try reflexivity; lia.
Qed.

Lemma spent_on_reset t st :
  dailySpent (resetDailyIfNeeded t st) = spent_on (day_index t) st.
Proof.
  unfold resetDailyIfNeeded, spent_on.
  destruct (day_index t =? lastResetDay st); reflexivity.
Qed.

(** C1: a transaction whose value exceeds maxPerTxSpend is rejected with
    the per-transaction limit reason, which names the value and the limit,
    whatever its other fields are. *)
Theorem check_rejects_over_per_tx_limit cfg env st tx v :
  value tx = Some v -> v > maxPerTxSpend cfg ->
  allowed (fst (check cfg env st tx)) = false /\
  reason (fst (check cfg env st tx)) = Some (per_tx_reason cfg v).
Proof.
  intros Hv Hgt. unfold check, limit_checks. rewrite Hv. simpl Js.nullish.
  replace (v >? maxPerTxSpend cfg) with true by (symmetry; lia).
  simpl. split; reflexivity.
Qed.

(** One call on day [d]: the accumulator grows by the value exactly when
    the call is allowed, and an allowed call keeps it within the limit. *)
Lemma check_spent cfg env st tx :
  let d := day_index (now env) in
  let v := Js.nullish (value tx) 0 in
  let r := fst (check cfg env st tx) in
  let st' := snd (check cfg env st tx) in
  lastResetDay st' = d /\
  spent_on d st' = spent_on d st + (if allowed r then v else 0) /\
  (allowed r = true -> spent_on d st + v <= maxDailySpend cfg).
Proof.
  cbv zeta.
  destruct (check_cases cfg env st tx) as [(Ha & Hs & _)|(Ha & _ & L & Hs)];
    rewrite Ha, Hs.
  - rewrite reset_lastResetDay. split; [reflexivity|].
    split; [|discriminate].
    unfold spent_on at 1. rewrite reset_lastResetDay, Z.eqb_refl.
    rewrite spent_on_reset. lia.
  - simpl. rewrite reset_lastResetDay. split; [reflexivity|].
    apply limit_checks_none in L. rewrite spent_on_reset in *.
    split; [|lia].
    unfold spent_on at 1. simpl. rewrite ?reset_lastResetDay, Z.eqb_refl.
    reflexivity.
Qed.

Lemma run_spent cfg d calls : forall st,
  same_day d calls ->
  let rs := fst (run cfg st calls) in
  let st' := snd (run cfg st calls) in
  spent_on d st' = spent_on d st + accepted_sum rs /\
  (any_accepted rs = true -> spent_on d st + accepted_sum rs <= maxDailySpend cfg).
Proof.
  induction calls as [|[env tx] rest IH]; intros st Hd; cbv zeta.
  - simpl. split; [lia|discriminate].
  - apply Forall_cons_iff in Hd as [Hnow Hrest]. simpl in Hnow.
    pose proof (check_spent cfg env st tx) as C. cbv zeta in C.
    rewrite Hnow in C. destruct C as (_ & Hsp & Hok).
    simpl. destruct (check cfg env st tx) as [r st1] eqn:E. simpl in *.
    specialize (IH st1 Hrest). cbv zeta in IH.
    destruct (run cfg st1 rest) as [rs st2] eqn:R. simpl in *.
    destruct IH as [IH1 IH2]. split; [lia|].
    unfold any_accepted in *. simpl.
    destruct (existsb _ rs) eqn:X.
    + intros _. specialize (IH2 eq_refl). lia.
    + rewrite orb_false_r. intros Hr. rewrite Hr in *.
      assert (accepted_sum rs = 0) as ->.
      { clear - X. induction rs as [|[r' t'] rs IHrs]; [reflexivity|].
        simpl in *. apply orb_false_elim in X as [-> X]. rewrite IHrs; auto. }
      specialize (Hok eq_refl). lia.
Qed.

(** C2: on one UTC day the values of the allowed calls never add up to
    more than maxDailySpend, and a further transaction that would push the
    accumulated spend past the limit is rejected with the daily-limit
    reason even though its own value is within maxPerTxSpend. *)
Theorem daily_limit_never_exceeded cfg st calls d :
  same_day d calls ->
  spent_on d st = 0 ->
  let rs := fst (run cfg st calls) in
  let st' := snd (run cfg st calls) in
  (any_accepted rs = true \/ 0 <= maxDailySpend cfg ->
   accepted_sum rs <= maxDailySpend cfg) /\
  (forall env tx,
     day_index (now env) = d ->
     Js.nullish (value tx) 0 <= maxPerTxSpend cfg ->
     accepted_sum rs + Js.nullish (value tx) 0 > maxDailySpend cfg ->
     allowed (fst (check cfg env st' tx)) = false /\
     reason (fst (check cfg env st' tx))
       = Some (daily_reason cfg (accepted_sum rs) (Js.nullish (value tx) 0)) /\
     spent_on d (snd (check cfg env st' tx)) = accepted_sum rs).
Proof.
  intros Hd H0. cbv zeta.
  pose proof (run_spent cfg d calls st Hd) as R. cbv zeta in R.
  rewrite H0 in R. simpl in R. destruct R as [Rsp Rok]. split.
  - intros [Ha|Hm]; [auto|].
    destruct (any_accepted (fst (run cfg st calls))) eqn:A; [auto|].
    assert (accepted_sum (fst (run cfg st calls)) = 0) as ->; [|assumption].
    revert A. generalize (fst (run cfg st calls)). unfold any_accepted.
    induction l as [|[r' t'] l IHl]; [reflexivity|].
    simpl. intros X. apply orb_false_elim in X as [-> X]. rewrite IHl; auto.
  - intros env tx Hnow Hv Hsum.
    set (st' := snd (run cfg st calls)) in *.
    unfold check. rewrite <- Rsp in *.
    assert (dailySpent (resetDailyIfNeeded (now env) st') = spent_on d st') as E
      by (rewrite spent_on_reset, Hnow; reflexivity).
    unfold limit_checks. rewrite E.
    replace (Js.nullish (value tx) 0 >? maxPerTxSpend cfg) with false
      by (symmetry; lia).
    replace (spent_on d st' + Js.nullish (value tx) 0 >? maxDailySpend cfg)
      with true by (symmetry; lia).
    simpl. repeat split.
    rewrite <- Hnow at 1. unfold spent_on at 1.
    rewrite reset_lastResetDay, Z.eqb_refl. exact E.
Qed.

(** C3: with no day boundary crossed, a call that returns allowed=false
    leaves dailySpent as it was, and dailySpent grows, by the value of the
    transaction, only on a call that returns allowed=true. *)
Theorem rejected_check_keeps_dailySpent cfg env st tx :
  day_index (now env) = lastResetDay st ->
  let r := fst (check cfg env st tx) in
  let st' := snd (check cfg env st tx) in
  (allowed r = false -> dailySpent st' = dailySpent st) /\
  (allowed r = true ->
   dailySpent st' = dailySpent st + Js.nullish (value tx) 0) /\
  (dailySpent st' <> dailySpent st -> allowed r = true).
Proof.
  intros Hday. cbv zeta.
  destruct (check_cases cfg env st tx) as [(Ha & Hs & _)|(Ha & _ & _ & Hs)];
    rewrite Ha, Hs, (reset_same_day _ _ Hday); simpl.
  - repeat split; try discriminate; try reflexivity. intros H; now elim H.
  - repeat split; try discriminate; reflexivity.
Qed.

Lemma sensitive_lookup k (t : list (string * string)) :
  existsb (fun kv => String.eqb k (fst kv)) t = true ->
  exists text, lookup k t = Some text.
Proof.
  induction t as [|[k' v] t IH]; simpl; [discriminate|].
  destruct (String.eqb k k'); [eauto|exact IH].
Qed.

Lemma sensitive_nonempty d : is_sensitive d = true -> Js.truthy_string d = true.
Proof. destruct d; [discriminate|reflexivity]. Qed.

Lemma checkCalldata_sensitive d :
  is_sensitive d = true ->
  exists text,
    lookup (Js.toLowerCase (Js.slice 0 10 d)) SUSPICIOUS_SELECTORS = Some text /\
    checkCalldata d =
      (warning_sign ++ text)
      :: (if is_unlimited_approval d
          then [alarm_sign
                ++ "UNLIMITED APPROVAL detected - consider using exact amount"]
          else []).
Proof.
  intros H. apply sensitive_lookup in H as [text H]. exists text.
  split; [exact H|]. unfold checkCalldata, is_unlimited_approval. rewrite H.
  destruct ((_ =? "0x095ea7b3")%string && _)%bool; [|reflexivity].
  destruct (_ =? _)%string; reflexivity.
Qed.

(** C5: a transaction that passes the value, daily-limit, list, gas and
    simulation steps is allowed whatever its calldata; calldata whose
    selector is one of the sensitive operations adds a warning to the
    result, and the unlimited approve encoding adds a second one; neither
    makes check return allowed=false. *)
Theorem sensitive_calldata_only_warns cfg env st tx d :
  data tx = Some d ->
  is_sensitive d = true ->
  limit_checks cfg (resetDailyIfNeeded (now env) st)
               (Js.nullish (value tx) 0) = None ->
  check_lists cfg tx = None ->
  gas_exceeded cfg tx = None ->
  (must_simulate cfg tx = true -> success (simulate env tx) = true) ->
  let r := fst (check cfg env st tx) in
  allowed r = true /\ reason r = None /\
  warnings r = checkCalldata d /\
  (exists text,
     lookup (Js.toLowerCase (Js.slice 0 10 d)) SUSPICIOUS_SELECTORS = Some text /\
     In (warning_sign ++ text) (warnings r)) /\
  (is_unlimited_approval d = true ->
   warnings r =
     [ warning_sign ++ "approve - check spender address carefully";
       alarm_sign ++ "UNLIMITED APPROVAL detected - consider using exact amount" ]).
Proof.
  intros Hd Hs Hl Hc Hg Hsim. cbv zeta.
  assert (fst (check cfg env st tx) =
          {| allowed := true; reason := None; warnings := checkCalldata d;
             simulation := if must_simulate cfg tx
                           then Some (simulate env tx) else None;
             valueWei := Some (Js.nullish (value tx) 0) |}) as ->.
  { unfold check. rewrite Hl, Hc, Hg. unfold calldata_warnings.
    rewrite Hd, (sensitive_nonempty _ Hs).
    destruct (must_simulate cfg tx); [|reflexivity].
    specialize (Hsim eq_refl).
    destruct (simulate env tx) as [ok gu rd e]. simpl in Hsim. subst ok.
    reflexivity. }
  simpl. destruct (checkCalldata_sensitive d Hs) as (text & Ht & Hw).
  repeat split.
  - exists text. split; [exact Ht|]. rewrite Hw. left. reflexivity.
  - intros Hu. rewrite Hw, Hu.
    unfold is_unlimited_approval in Hu.
    apply andb_prop in Hu as [Hu _]. apply andb_prop in Hu as [Hu _].
    apply String.eqb_eq in Hu. rewrite Hu in Ht. simpl in Ht.
    injection Ht as <-. reflexivity.
Qed.

(** C10: a transaction without a value field is checked as value 0: under
    non-negative limits and dailySpent within maxDailySpend neither spend
    limit step rejects it, a rejection by a later step does not carry a
    spend-limit reason, and an allowed result leaves dailySpent where the
    day's reset put it. *)
Theorem absent_value_checked_as_zero cfg env st tx :
  value tx = None ->
  0 <= maxPerTxSpend cfg ->
  0 <= maxDailySpend cfg ->
  dailySpent st <= maxDailySpend cfg ->
  let st1 := resetDailyIfNeeded (now env) st in
  let r := fst (check cfg env st tx) in
  let st' := snd (check cfg env st tx) in
  valueWei r = Some 0 /\
  limit_checks cfg st1 0 = None /\
  (forall why, reason r = Some why -> String.prefix "Transaction" why = false) /\
  (allowed r = true -> dailySpent st' = dailySpent st1).
Proof.
  intros Hv Hp Hm Hs. cbv zeta.
  assert (limit_checks cfg (resetDailyIfNeeded (now env) st) 0 = None) as L.
  { apply limit_checks_none. split; [lia|].
    unfold resetDailyIfNeeded. destruct (negb _); simpl; lia. }
  unfold check. rewrite Hv. simpl Js.nullish. rewrite L.
  destruct (check_lists cfg tx) as [why|] eqn:C.
  { simpl. repeat split; try discriminate.
    intros w [= <-]. unfold check_lists in C.
    destruct (to tx) as [a|]; [|discriminate].
    destruct (Js.truthy_string a); [|discriminate].
    destruct (in_list _ (_ ++ _)); [injection C as <-; reflexivity|].
    destruct (allowedContracts cfg) as [[|x l]|]; try discriminate.
    destruct (in_list _ _); [discriminate|injection C as <-; reflexivity]. }
  destruct (gas_exceeded cfg tx) as [[g m]|].
  { simpl. repeat split; try discriminate. intros w [= <-]. reflexivity. }
  destruct (must_simulate cfg tx).
  - destruct (simulate env tx) as [[|] gu rd e]; simpl.
    + repeat split; try discriminate. lia.
    + repeat split; try discriminate. intros w [= <-]. reflexivity.
  - simpl. repeat split; try discriminate. lia.
Qed.

(** The scenario of the specification: ten payments of 0.05 ETH pass and
    the eleventh is refused for the day. *)
Example ten_pass_eleventh_fails :
  let calls := repeat (Samples.noon, Samples.pay (Samples.ether / 20)) 11 in
  map (fun p => allowed (fst p)) (fst (run Samples.strict_cfg initial_state calls))
  = (repeat true 10 ++ [false])%list /\
  dailySpent (snd (run Samples.strict_cfg initial_state calls)) = Samples.ether / 2.
Proof. vm_compute. split; reflexivity. Qed.

Lemma check_rejects_over_per_tx_limit_witness :
  let tx := Samples.pay (Samples.ether / 10) in
  value tx = Some (Samples.ether / 10) /\
  Samples.ether / 10 > maxPerTxSpend Samples.strict_cfg /\
  allowed (fst (check Samples.strict_cfg Samples.noon initial_state tx)) = false /\
  reason (fst (check Samples.strict_cfg Samples.noon initial_state tx))
  = Some (per_tx_reason Samples.strict_cfg (Samples.ether / 10)).
Proof.
  cbv zeta. split; [reflexivity|]. split; [reflexivity|].
  apply (check_rejects_over_per_tx_limit Samples.strict_cfg Samples.noon
           initial_state (Samples.pay (Samples.ether / 10)) (Samples.ether / 10));
    reflexivity.
Defined.

Lemma daily_limit_never_exceeded_witness :
  let calls := repeat (Samples.noon, Samples.pay (Samples.ether / 20)) 11 in
  same_day 1 calls /\
  spent_on 1 initial_state = 0 /\
  accepted_sum (fst (run Samples.strict_cfg initial_state calls))
  <= maxDailySpend Samples.strict_cfg.
Proof.
  cbv zeta.
  assert (same_day 1 (repeat (Samples.noon, Samples.pay (Samples.ether / 20)) 11))
    as Hd by (repeat constructor).
  assert (spent_on 1 initial_state = 0) as H0 by reflexivity.
  split; [exact Hd|]. split; [exact H0|].
  apply (proj1 (daily_limit_never_exceeded Samples.strict_cfg initial_state
                  _ 1 Hd H0)).
  left. reflexivity.
Defined.

Lemma rejected_check_keeps_dailySpent_witness :
  let st := {| dailySpent := Samples.ether / 2; lastResetDay := 1 |} in
  let tx := Samples.pay (Samples.ether / 20) in
  day_index (now Samples.noon) = lastResetDay st /\
  allowed (fst (check Samples.strict_cfg Samples.noon st tx)) = false /\
  dailySpent (snd (check Samples.strict_cfg Samples.noon st tx)) = dailySpent st.
Proof.
  cbv zeta. split; [reflexivity|]. split; [reflexivity|].
  apply (proj1 (rejected_check_keeps_dailySpent Samples.strict_cfg Samples.noon
                  {| dailySpent := Samples.ether / 2; lastResetDay := 1 |}
                  (Samples.pay (Samples.ether / 20)) eq_refl)).
  reflexivity.
Defined.

Lemma sensitive_calldata_only_warns_witness :
  let r := fst (check Samples.strict_cfg Samples.noon initial_state
                      Samples.approve_tx) in
  data Samples.approve_tx = Some Samples.unlimited_approve_data /\
  is_sensitive Samples.unlimited_approve_data = true /\
  is_unlimited_approval Samples.unlimited_approve_data = true /\
  allowed r = true /\ List.length (warnings r) = 2%nat.
Proof.
  cbv zeta. split; [reflexivity|]. split; [reflexivity|]. split; [reflexivity|].
  destruct (sensitive_calldata_only_warns Samples.strict_cfg Samples.noon
              initial_state Samples.approve_tx Samples.unlimited_approve_data)
    as (Ha & _ & _ & _ & Hw);
    [reflexivity|reflexivity|reflexivity|reflexivity|reflexivity|reflexivity|].
  split; [exact Ha|]. rewrite (Hw eq_refl). reflexivity.
Defined.

Lemma absent_value_checked_as_zero_witness :
  let st := {| dailySpent := Samples.ether / 2; lastResetDay := 1 |} in
  value Samples.approve_tx = None /\
  0 <= maxPerTxSpend Samples.strict_cfg /\
  0 <= maxDailySpend Samples.strict_cfg /\
  dailySpent st <= maxDailySpend Samples.strict_cfg /\
  allowed (fst (check Samples.strict_cfg Samples.noon st Samples.approve_tx)) = true /\
  dailySpent (snd (check Samples.strict_cfg Samples.noon st Samples.approve_tx))
  = Samples.ether / 2.
Proof.
  cbv zeta. split; [reflexivity|].
  split; [vm_compute; discriminate|]. split; [vm_compute; discriminate|].
  split; [vm_compute; discriminate|].
  split; [reflexivity|].
  destruct (absent_value_checked_as_zero Samples.strict_cfg Samples.noon
              {| dailySpent := Samples.ether / 2; lastResetDay := 1 |}
              Samples.approve_tx) as (_ & _ & _ & Hs);
    [reflexivity|vm_compute; discriminate|vm_compute; discriminate
    |vm_compute; discriminate|].
  rewrite (Hs eq_refl). reflexivity.
Defined.

End FirewallFacts.

(** ** More of the firewall: the lists, the gas cap, the simulation *)

Module FirewallSteps.
Import Firewall FirewallFacts.

(** A call that passes every step. *)
Lemma check_passes cfg env st tx :
  limit_checks cfg (resetDailyIfNeeded (now env) st)
               (Js.nullish (value tx) 0) = None ->
  check_lists cfg tx = None ->
  gas_exceeded cfg tx = None ->
  (must_simulate cfg tx = true -> success (simulate env tx) = true) ->
  check cfg env st tx =
  ({| allowed := true; reason := None; warnings := calldata_warnings tx;
      simulation := if must_simulate cfg tx then Some (simulate env tx) else None;
      valueWei := Some (Js.nullish (value tx) 0) |},
   {| dailySpent := dailySpent (resetDailyIfNeeded (now env) st)
                    + Js.nullish (value tx) 0;
      lastResetDay := lastResetDay (resetDailyIfNeeded (now env) st) |}).
Proof.
  intros Hl Hc Hg Hsim. unfold check. rewrite Hl, Hc, Hg.
  destruct (must_simulate cfg tx); [|reflexivity].
  specialize (Hsim eq_refl).
  destruct (simulate env tx) as [ok gu rd e]. simpl in Hsim. subst ok.
  reflexivity.
Qed.

Lemma in_list_In target l b :
  In b l -> Js.toLowerCase b = target -> in_list target l = true.
Proof.
  intros Hin <-. unfold in_list. apply existsb_exists.
  exists b. split; [exact Hin|apply String.eqb_refl].
Qed.

Lemma truthy_nonempty s : s <> "" -> Js.truthy_string s = true.
Proof. destruct s; [congruence|reflexivity]. Qed.

(** A target on the blocklist is refused, in whatever letter case either
    side writes the address, even when the allowlist names it too; the
    node is not asked and the day's spend stays as it was. *)
Theorem blocklist_overrides_allowlist cfg env st tx addr bl b :
  to tx = Some addr -> addr <> "" ->
  blockedContracts cfg = Some bl -> In b bl ->
  Js.toLowerCase b = Js.toLowerCase addr ->
  limit_checks cfg (resetDailyIfNeeded (now env) st)
               (Js.nullish (value tx) 0) = None ->
  let r := fst (check cfg env st tx) in
  allowed r = false /\
  reason r = Some ("Contract " ++ addr ++ " is on blocklist") /\
  simulation r = None /\
  snd (check cfg env st tx) = resetDailyIfNeeded (now env) st.
Proof.
  intros Hto Hne Hbl Hin Hlow Hl. cbv zeta. unfold check. rewrite Hl.
  unfold check_lists. rewrite Hto, (truthy_nonempty _ Hne), Hbl. simpl.
  rewrite (in_list_In _ _ _ Hin Hlow). simpl. repeat split.
Qed.

(** The two system contracts (WETH and USDC on Base) pass the list step
    under every allowlist, unless the blocklist names them. *)
Theorem safe_contracts_pass_every_allowlist cfg env st tx addr safe :
  to tx = Some addr ->
  In safe SAFE_CONTRACTS -> Js.toLowerCase safe = Js.toLowerCase addr ->
  in_list (Js.toLowerCase addr) (Js.nullish (blockedContracts cfg) []) = false ->
  limit_checks cfg (resetDailyIfNeeded (now env) st)
               (Js.nullish (value tx) 0) = None ->
  gas_exceeded cfg tx = None ->
  (must_simulate cfg tx = true -> success (simulate env tx) = true) ->
  allowed (fst (check cfg env st tx)) = true.
Proof.
  intros Hto Hs Hlow Hb Hl Hg Hsim.
  rewrite (check_passes cfg env st tx Hl); [reflexivity| |exact Hg|exact Hsim].
  unfold check_lists. rewrite Hto. destruct (Js.truthy_string addr); [|reflexivity].
  unfold KNOWN_MALICIOUS. cbn [app]. rewrite Hb.
  destruct (allowedContracts cfg) as [[|a l]|]; try reflexivity.
  rewrite (in_list_In _ (SAFE_CONTRACTS ++ a :: l)%list safe);
    [reflexivity| |exact Hlow].
  apply in_or_app. now left.
Qed.

(** An empty allowlist restricts nothing: the firewall decides as it does
    with no allowlist at all. *)
Theorem empty_allowlist_restricts_nothing cfg env st tx :
  allowedContracts cfg = Some [] ->
  check cfg env st tx =
  check {| maxDailySpend := maxDailySpend cfg;
           maxPerTxSpend := maxPerTxSpend cfg;
           allowedContracts := None;
           blockedContracts := blockedContracts cfg;
           maxGasLimit := maxGasLimit cfg;
           requireSimulation := requireSimulation cfg;
           rpcUrl := rpcUrl cfg;
           chain := chain cfg |} env st tx.
Proof.
  intros Ha. unfold check, check_lists, limit_checks, gas_exceeded, must_simulate.
  simpl. rewrite Ha. reflexivity.
Qed.

(** A firewall built without maxGasLimit caps gas at 500000: a
    transaction that asks for more is refused before the node is asked. *)
Theorem default_gas_cap_is_500000 o env st tx g :
  opt_maxGasLimit o = Absent ->
  gas tx = Some g -> g > 500000 ->
  limit_checks (make_config o) (resetDailyIfNeeded (now env) st)
               (Js.nullish (value tx) 0) = None ->
  check_lists (make_config o) tx = None ->
  let r := fst (check (make_config o) env st tx) in
  allowed r = false /\
  reason r = Some ("Gas limit " ++ Js.bigint_toString g
                   ++ " exceeds maximum 500000") /\
  simulation r = None /\
  snd (check (make_config o) env st tx) = resetDailyIfNeeded (now env) st.
Proof.
  intros Habs Hg Hgt Hl Hc. cbv zeta. unfold check. rewrite Hl, Hc.
  unfold gas_exceeded. rewrite Hg.
  assert (maxGasLimit (make_config o) = Some 500000) as ->
    by (unfold make_config; simpl; rewrite Habs; reflexivity).
  unfold Js.truthy_bigint.
  replace (g =? 0) with false by (symmetry; lia).
  replace (g >? 500000) with true by (symmetry; lia).
  simpl. repeat split.
Qed.

(** Simulation fails closed: when the node throws, the transaction is
    refused with the error's message, or with the stock text when the
    error has no message, and the day's spend stays as it was. *)
Theorem failed_simulation_rejects cfg env st tx addr m :
  requireSimulation cfg = Some true ->
  to tx = Some addr -> addr <> "" ->
  client_call env tx = Thrown m ->
  limit_checks cfg (resetDailyIfNeeded (now env) st)
               (Js.nullish (value tx) 0) = None ->
  check_lists cfg tx = None ->
  gas_exceeded cfg tx = None ->
  let r := fst (check cfg env st tx) in
  allowed r = false /\
  (forall msg, m = Some msg -> msg <> "" ->
               reason r = Some ("Simulation failed: " ++ msg)) /\
  (m = None \/ m = Some "" ->
   reason r = Some "Simulation failed: Simulation failed") /\
  warnings r = [] /\
  snd (check cfg env st tx) = resetDailyIfNeeded (now env) st.
Proof.
  intros Hreq Hto Hne Hcall Hl Hc Hg. cbv zeta. unfold check.
  rewrite Hl, Hc, Hg. unfold must_simulate.
  rewrite Hreq, Hto. simpl Js.truthy_opt. rewrite (truthy_nonempty _ Hne).
  cbn [andb]. unfold simulate. rewrite Hcall. cbn.
  repeat split.
  - intros msg -> Hmsg. simpl. rewrite (truthy_nonempty _ Hmsg). reflexivity.
  - intros [->| ->]; reflexivity.
Qed.

(** A transaction with no recipient (a deployment) meets neither list
    and is never simulated: it is allowed as soon as the spend limits and
    the gas cap let it through. *)
Theorem deployment_skips_lists_and_simulation cfg env st tx :
  to tx = None ->
  limit_checks cfg (resetDailyIfNeeded (now env) st)
               (Js.nullish (value tx) 0) = None ->
  gas_exceeded cfg tx = None ->
  let r := fst (check cfg env st tx) in
  allowed r = true /\ simulation r = None.
Proof.
  intros Hto Hl Hg. cbv zeta.
  assert (must_simulate cfg tx = false) as Hm
    by (unfold must_simulate; rewrite Hto; apply andb_false_r).
  rewrite (check_passes cfg env st tx Hl); [| |exact Hg|congruence].
  - simpl. rewrite Hm. split; reflexivity.
  - unfold check_lists. rewrite Hto. reflexivity.
Qed.

(** The shape of every result: a refusal carries a reason and no
    warning, an allowed result carries no reason and the warnings of the
    calldata, and both report the value that was checked. *)
Theorem refusal_has_reason_and_no_warning cfg env st tx :
  let r := fst (check cfg env st tx) in
  (allowed r = false -> reason r <> None /\ warnings r = []) /\
  (allowed r = true -> reason r = None /\ warnings r = calldata_warnings tx) /\
  valueWei r = Some (Js.nullish (value tx) 0).
Proof.
  cbv zeta. unfold check.
  destruct (limit_checks cfg _ _); [simpl; repeat split; discriminate|].
  destruct (check_lists cfg tx); [simpl; repeat split; discriminate|].
  destruct (gas_exceeded cfg tx) as [[g m]|]; [simpl; repeat split; discriminate|].
  destruct (must_simulate cfg tx).
  - destruct (simulate env tx) as [[|] gu rd e]; simpl;
      repeat split; discriminate.
  - simpl; repeat split; discriminate.
Qed.

(** ** The daily counter *)

(** On a day other than the one of the last reset, check decides as if
    resetDailySpend had been called just before: what was spent on other
    days does not count. *)
Theorem new_day_check_starts_from_zero cfg env st tx :
  day_index (now env) <> lastResetDay st ->
  check cfg env st tx = check cfg env (resetDailySpend (now env) st) tx.
Proof.
  intros Hday. unfold check.
  assert (resetDailyIfNeeded (now env) st
          = resetDailyIfNeeded (now env) (resetDailySpend (now env) st)) as <-;
    [|reflexivity].
  unfold resetDailyIfNeeded, resetDailySpend. simpl.
  rewrite Z.eqb_refl. apply Z.eqb_neq in Hday. rewrite Hday. reflexivity.
Qed.

(** getRemainingDaily after a check, asked on the same day: the allowance
    has dropped by the value of the transaction when it was allowed and
    is what it was when it was refused; after an allowed transaction it
    is not negative. *)
Theorem remaining_drops_by_allowed_value cfg env st tx t :
  day_index t = day_index (now env) ->
  let r := fst (check cfg env st tx) in
  let before := fst (getRemainingDaily cfg (now env) st) in
  let after := fst (getRemainingDaily cfg t (snd (check cfg env st tx))) in
  after = before - (if allowed r then Js.nullish (value tx) 0 else 0) /\
  (allowed r = true -> 0 <= after).
Proof.
  intros Ht. cbv zeta. unfold getRemainingDaily. cbn [fst].
  destruct (check_cases cfg env st tx) as [(Ha & Hs & _)|(Ha & _ & L & Hs)];
    rewrite Ha, Hs.
  - rewrite reset_same_day by (rewrite reset_lastResetDay; exact Ht).
    split; [lia|discriminate].
  - rewrite reset_same_day by (simpl; rewrite reset_lastResetDay; exact Ht).
    apply limit_checks_none in L. simpl. split; lia.
Qed.

(** ** The calldata check *)


(** ** The constructor *)

(** A configuration that spells requireSimulation: undefined turns the
    simulation off (the spread copies the undefined over the default):
    the node is never asked. *)
Theorem undefined_requireSimulation_turns_simulation_off o env st tx call :
  opt_requireSimulation o = Undefined ->
  simulation (fst (check (make_config o) env st tx)) = None /\
  check (make_config o) env st tx
  = check (make_config o) {| now := now env; client_call := call |} st tx.
Proof.
  intros Hu.
  assert (must_simulate (make_config o) tx = false) as Hm.
  { unfold must_simulate, make_config. simpl. rewrite Hu. reflexivity. }
  unfold check. rewrite Hm. simpl now.
  destruct (limit_checks _ _ _); [split; reflexivity|].
  destruct (check_lists _ _); [split; reflexivity|].
  destruct (gas_exceeded _ _) as [[g m]|]; split; reflexivity.
Qed.

(** ** The theorems at work on the sample firewalls *)

Lemma blocklist_overrides_allowlist_witness :
  let tx := Samples.pay_to Samples.drainer (Samples.ether / 20) in
  allowedContracts Samples.listed_cfg = Some [Samples.drainer] /\
  allowed (fst (check Samples.listed_cfg Samples.noon initial_state tx)) = false /\
  reason (fst (check Samples.listed_cfg Samples.noon initial_state tx))
  = Some ("Contract " ++ Samples.drainer ++ " is on blocklist").
Proof.
  cbv zeta. split; [reflexivity|].
  destruct (blocklist_overrides_allowlist Samples.listed_cfg Samples.noon
              initial_state (Samples.pay_to Samples.drainer (Samples.ether / 20))
              Samples.drainer [Js.toLowerCase Samples.drainer]
              (Js.toLowerCase Samples.drainer))
    as (Ha & Hr & _);
    [reflexivity|discriminate|reflexivity|now left|reflexivity
    |vm_compute; reflexivity|].
  split; [exact Ha|exact Hr].
Defined.

Lemma safe_contracts_pass_every_allowlist_witness :
  let tx := Samples.pay_to Samples.usdc_upper (Samples.ether / 20) in
  allowedContracts Samples.listed_cfg = Some [Samples.drainer] /\
  allowed (fst (check Samples.listed_cfg Samples.noon initial_state tx)) = true.
Proof.
  cbv zeta. split; [reflexivity|].
  apply (safe_contracts_pass_every_allowlist Samples.listed_cfg Samples.noon
           initial_state (Samples.pay_to Samples.usdc_upper (Samples.ether / 20))
           Samples.usdc_upper "0x833589fCD6eDb6E08f4c7C32D4f71b54bdA02913");
    [reflexivity|right; now left|reflexivity|reflexivity
    |vm_compute; reflexivity|reflexivity|reflexivity].
Defined.

Lemma empty_allowlist_restricts_nothing_witness :
  allowedContracts Samples.open_cfg = Some [] /\
  allowed (fst (check Samples.open_cfg Samples.noon initial_state
                      (Samples.pay_to Samples.drainer 1))) = true.
Proof.
  split; [reflexivity|].
  rewrite (empty_allowlist_restricts_nothing Samples.open_cfg Samples.noon
             initial_state (Samples.pay_to Samples.drainer 1) eq_refl).
  vm_compute. reflexivity.
Defined.

Lemma default_gas_cap_is_500000_witness :
  opt_maxGasLimit Samples.listed_options = Absent /\
  gas Samples.heavy = Some 500001 /\
  reason (fst (check Samples.listed_cfg Samples.noon initial_state Samples.heavy))
  = Some "Gas limit 500001 exceeds maximum 500000".
Proof.
  split; [reflexivity|]. split; [reflexivity|].
  destruct (default_gas_cap_is_500000 Samples.listed_options Samples.noon
              initial_state Samples.heavy 500001)
    as (_ & Hr & _);
    [reflexivity|reflexivity|reflexivity|vm_compute; reflexivity|reflexivity|].
  exact Hr.
Defined.

Lemma failed_simulation_rejects_witness :
  let tx := Samples.pay (Samples.ether / 20) in
  client_call Samples.night tx = Thrown (Some "execution reverted") /\
  allowed (fst (check Samples.strict_cfg Samples.night initial_state tx)) = false /\
  reason (fst (check Samples.strict_cfg Samples.night initial_state tx))
  = Some "Simulation failed: execution reverted" /\
  dailySpent (snd (check Samples.strict_cfg Samples.night initial_state tx)) = 0.
Proof.
  cbv zeta. split; [reflexivity|].
  destruct (failed_simulation_rejects Samples.strict_cfg Samples.night
              initial_state (Samples.pay (Samples.ether / 20)) Samples.weth
              (Some "execution reverted"))
    as (Ha & Hr & _ & _ & Hs);
    [reflexivity|reflexivity|discriminate|reflexivity|vm_compute; reflexivity
    |reflexivity|reflexivity|].
  split; [exact Ha|]. split; [apply (Hr _ eq_refl); discriminate|].
  rewrite Hs. reflexivity.
Defined.

Lemma deployment_skips_lists_and_simulation_witness :
  to Samples.deploy = None /\
  allowedContracts Samples.listed_cfg = Some [Samples.drainer] /\
  allowed (fst (check Samples.listed_cfg Samples.night initial_state
                      Samples.deploy)) = true.
Proof.
  split; [reflexivity|]. split; [reflexivity|].
  apply (deployment_skips_lists_and_simulation Samples.listed_cfg Samples.night
           initial_state Samples.deploy);
    [reflexivity|vm_compute; reflexivity|reflexivity].
Defined.

Lemma new_day_check_starts_from_zero_witness :
  let st := {| dailySpent := Samples.ether / 2; lastResetDay := 0 |} in
  let tx := Samples.pay (Samples.ether / 20) in
  day_index (now Samples.noon) <> lastResetDay st /\
  allowed (fst (check Samples.strict_cfg Samples.noon st tx)) = true /\
  dailySpent (snd (check Samples.strict_cfg Samples.noon st tx))
  = Samples.ether / 20.
Proof.
  cbv zeta.
  assert (day_index (now Samples.noon) <> 0) as Hd by discriminate.
  split; [exact Hd|].
  rewrite (new_day_check_starts_from_zero Samples.strict_cfg Samples.noon
             {| dailySpent := Samples.ether / 2; lastResetDay := 0 |}
             (Samples.pay (Samples.ether / 20)) Hd).
  vm_compute. split; reflexivity.
Defined.

Lemma remaining_drops_by_allowed_value_witness :
  let tx := Samples.pay (Samples.ether / 20) in
  let later := now Samples.noon + 3600000 in
  day_index later = day_index (now Samples.noon) /\
  fst (getRemainingDaily Samples.strict_cfg later
         (snd (check Samples.strict_cfg Samples.noon initial_state tx)))
  = Samples.ether / 2 - Samples.ether / 20.
Proof.
  cbv zeta. split; [reflexivity|].
  rewrite (proj1 (remaining_drops_by_allowed_value Samples.strict_cfg
                    Samples.noon initial_state
                    (Samples.pay (Samples.ether / 20))
                    (now Samples.noon + 3600000) eq_refl)).
  vm_compute. reflexivity.
Defined.

Lemma undefined_requireSimulation_turns_simulation_off_witness :
  let o := {| opt_maxDailySpend := Samples.ether;
              opt_maxPerTxSpend := Samples.ether;
              opt_allowedContracts := Absent;
              opt_blockedContracts := Absent;
              opt_maxGasLimit := Absent;
              opt_requireSimulation := Undefined;
              opt_rpcUrl := Absent;
              opt_chain := Absent |} in
  opt_requireSimulation o = Undefined /\
  simulation (fst (check (make_config o) Samples.night initial_state
                         (Samples.pay 1))) = None.
Proof.
  cbv zeta. split; [reflexivity|].
  apply (undefined_requireSimulation_turns_simulation_off
           {| opt_maxDailySpend := Samples.ether;
              opt_maxPerTxSpend := Samples.ether;
              opt_allowedContracts := Absent;
              opt_blockedContracts := Absent;
              opt_maxGasLimit := Absent;
              opt_requireSimulation := Undefined;
              opt_rpcUrl := Absent;
              opt_chain := Absent |}
           Samples.night initial_state (Samples.pay 1) Samples.node_ok eq_refl).
Defined.

End FirewallSteps.

Module AuditFacts.
Import Audit.
Local Open Scope list_scope.

(** *** The stable sort *)

Section SortFacts.
Context {A : Type} (cmp : A -> A -> Z) (key : A -> Z).
Hypothesis cmp_key : forall a b, cmp a b = key a - key b.

Lemma insert_by_perm x l : Permutation (insert_by cmp x l) (x :: l).
Proof.
  induction l as [|y r IH]; simpl; [reflexivity|].
  destruct (cmp x y <=? 0); [reflexivity|].
  rewrite IH. apply perm_swap.
Qed.

Lemma sort_by_perm l : Permutation (sort_by cmp l) l.
Proof.
  induction l as [|x r IH]; simpl; [reflexivity|].
  rewrite insert_by_perm. now constructor.
Qed.

Definition key_le (a b : A) : Prop := key a <= key b.

Lemma insert_by_sorted x l :
  StronglySorted key_le l -> StronglySorted key_le (insert_by cmp x l).
Proof.
  induction 1 as [|y r Hr IH Hy]; simpl; [repeat constructor|].
  destruct (cmp x y <=? 0) eqn:E; rewrite cmp_key in E.
  - constructor; [now constructor|].
    constructor; [unfold key_le; lia|].
    eapply Forall_impl; [|exact Hy]. unfold key_le. intros; lia.
  - constructor; [exact IH|].
    rewrite (insert_by_perm x r). constructor; [unfold key_le; lia|exact Hy].
Qed.

Lemma sort_by_sorted l : StronglySorted key_le (sort_by cmp l).
Proof.
  induction l as [|x r IH]; simpl; [constructor|].
  now apply insert_by_sorted.
Qed.

Lemma sort_by_head_least l x r :
  sort_by cmp l = x :: r -> In x l /\ forall y, In y l -> key x <= key y.
Proof.
  intros E. pose proof (sort_by_sorted l) as S. pose proof (sort_by_perm l) as P.
  rewrite E in S, P. split.
  - eapply Permutation_in; [exact P|now left].
  - intros y Hy. apply Permutation_sym in P.
    apply (Permutation_in _ P) in Hy as [<-|Hy]; [lia|].
    inversion S as [|? ? _ Hall]; subst.
    rewrite Forall_forall in Hall. now apply Hall.
Qed.

End SortFacts.

(** *** The map *)

Lemma map_has_false k (m : Store) :
  map_has k m = false <-> ~ In k (map fst m).
Proof.
  unfold map_has. induction m as [|[k' v] r IH]; simpl; [tauto|].
  destruct (String.eqb_spec k k') as [->|N]; simpl.
  - split; [discriminate|]. intros H. elim H. now left.
  - rewrite IH. split; intros H; [intros [E|I]; [congruence|tauto]|tauto].
Qed.

Lemma map_set_fresh k v (m : Store) :
  ~ In k (map fst m) -> map_set k v m = m ++ [(k, v)].
Proof.
  induction m as [|[k' v'] r IH]; simpl; [reflexivity|]. intros H.
  destruct (String.eqb_spec k k') as [->|N]; [elim H; now left|].
  rewrite IH; tauto.
Qed.

Lemma map_delete_absent k (m : Store) :
  ~ In k (map fst m) -> map_delete k m = m.
Proof.
  induction m as [|[k' v'] r IH]; simpl; [reflexivity|]. intros H.
  destruct (String.eqb_spec k k') as [->|N]; [elim H; now left|].
  simpl. rewrite IH; tauto.
Qed.

Lemma map_delete_present (m : Store) e :
  store_ok m -> In e (map_values m) ->
  exists l1 l2, m = l1 ++ (id e, e) :: l2 /\ map_delete (id e) m = l1 ++ l2.
Proof.
  unfold store_ok, map_values.
  induction m as [|[k v] r IH]; simpl; [intros _ []|].
  intros [ND WK] Hin. inversion ND as [|? ? Hk ND']; subst.
  inversion WK as [|? ? Hkv WK']; subst. simpl in Hkv. subst k.
  destruct (String.eqb_spec (id e) (id v)) as [E|N]; simpl.
  - assert (e = v) as ->.
    { destruct Hin as [->|Hin]; [reflexivity|]. exfalso. apply Hk.
      rewrite <- E. apply in_map_iff in Hin as ([k' e'] & He & Hin). simpl in He.
      subst e'. rewrite Forall_forall in WK'.
      pose proof (WK' _ Hin) as W. simpl in W. subst k'.
      apply in_map_iff. now exists (id e, e). }
    exists [], r. split; [reflexivity|]. now apply map_delete_absent.
  - destruct Hin as [->|Hin]; [congruence|].
    destruct (IH (conj ND' WK') Hin) as (l1 & l2 & -> & Hd).
    exists ((id v, v) :: l1), l2. split; [reflexivity|].
    rewrite Hd. reflexivity.
Qed.

Lemma entries_saveToFile cfg env lg :
  entries (saveToFile cfg env lg) = entries lg.
Proof.
  unfold saveToFile. destruct (storage cfg); [reflexivity|].
  destruct (write_ok env); reflexivity.
Qed.

Lemma maxEntries_nonzero o : maxEntries (make_config o) <> 0.
Proof.
  unfold make_config; simpl. destruct (opt_maxEntries o) as [n|]; simpl; [|lia].
  unfold Js.truthy_bigint. destruct (Z.eqb_spec n 0); simpl; lia.
Qed.

(** C6: when the store holds exactly maxEntries entries, one more log
    call removes one entry, whose timestamp is the smallest in the store,
    and then inserts the new entry: the other entries stay, in their
    order, and the store is again at maxEntries entries. *)
Theorem log_at_capacity_evicts_oldest o env e lg :
  store_ok (entries lg) ->
  map_size (entries lg) = maxEntries (make_config o) ->
  map_has (uuid env) (entries lg) = false ->
  exists l1 oldest l2,
    entries lg = l1 ++ (id oldest, oldest) :: l2 /\
    (forall x, In x (map_values (entries lg)) ->
               timestamp oldest <= timestamp x) /\
    entries (snd (log (make_config o) env e lg))
    = l1 ++ l2 ++ [(uuid env, full_entry (make_config o) env e)] /\
    map_size (entries (snd (log (make_config o) env e lg)))
    = maxEntries (make_config o).
Proof.
  intros OK Hsize Hfresh. set (cfg := make_config o) in *.
  assert ((map_size (entries lg) >=? maxEntries cfg) = true) as Hge
    by (rewrite Hsize; lia).
  unfold log. cbv zeta. cbn [snd]. rewrite entries_saveToFile. cbn [entries].
  rewrite Hge. unfold evict_oldest.
  destruct (sort_by oldest_first (map_values (entries lg))) as [|old rest] eqn:S.
  { exfalso. pose proof (sort_by_perm oldest_first (map_values (entries lg))) as P.
    rewrite S in P. apply Permutation_nil in P.
    unfold map_values in P. apply map_eq_nil in P.
    pose proof (maxEntries_nonzero o). fold cfg in H.
    rewrite <- Hsize in H. unfold map_size in H. rewrite P in H. now apply H. }
  destruct (sort_by_head_least oldest_first timestamp
              (fun a b => eq_refl) _ _ _ S) as [Hin Hmin].
  destruct (map_delete_present _ _ OK Hin) as (l1 & l2 & Hm & Hd).
  exists l1, old, l2. split; [exact Hm|]. split; [exact Hmin|].
  rewrite Hd. apply map_has_false in Hfresh.
  assert (~ In (uuid env) (map fst (l1 ++ l2))) as Hf.
  { intros I. apply Hfresh. rewrite Hm. rewrite map_app in *. simpl.
    apply in_app_or in I as [I|I]; apply in_or_app; [now left|right; now right]. }
  rewrite (map_set_fresh _ _ _ Hf), <- app_assoc. split; [reflexivity|].
  rewrite <- Hsize. unfold map_size. f_equal. rewrite Hm.
  rewrite !length_app. simpl. lia.
Qed.

(** The keys of the map stay the ids of its entries across [log]. *)
Lemma map_set_ok k v (m : Store) :
  k = id v -> store_ok m -> store_ok (map_set k v m).
Proof.
  intros -> [ND WK]. induction m as [|[k' v'] r IH]; simpl.
  - split; repeat constructor. intros [].
  - inversion ND as [|? ? Hk ND']; subst. inversion WK as [|? ? Hkv WK']; subst.
    destruct (String.eqb_spec (id v) k') as [<-|N].
    + split; simpl; [now constructor|now constructor].
    + destruct (IH ND' WK') as [ND2 WK2]. split; simpl; [|now constructor].
      constructor; [|exact ND2]. intros I. apply Hk. clear - I N.
      induction r as [|[k2 v2] r IHr]; simpl in *; [destruct I; [congruence|tauto]|].
      destruct (String.eqb_spec (id v) k2) as [<-|N2]; simpl in *.
      * destruct I as [I|I]; [congruence|tauto].
      * destruct I as [I|I]; [now left|right; now apply IHr].
Qed.

Lemma map_delete_ok k (m : Store) : store_ok m -> store_ok (map_delete k m).
Proof.
  intros [ND WK]. unfold map_delete. split.
  - induction m as [|[k' v'] r IH]; simpl; [constructor|].
    inversion ND as [|? ? Hk ND']; subst. inversion WK as [|? ? _ WK']; subst.
    destruct (negb (String.eqb k k')); simpl; [|now apply IH].
    constructor; [|now apply IH]. intros I. apply Hk.
    apply in_map_iff in I as (x & <- & Hx). apply filter_In in Hx as [Hx _].
    now apply in_map.
  - rewrite Forall_forall in *. intros x Hx. apply filter_In in Hx as [Hx _]. auto.
Qed.

Lemma log_store_ok cfg env e lg :
  store_ok (entries lg) -> store_ok (entries (snd (log cfg env e lg))).
Proof.
  intros OK. unfold log. simpl snd. rewrite entries_saveToFile. simpl entries.
  apply map_set_ok; [reflexivity|].
  destruct (_ >=? _); [|exact OK]. unfold evict_oldest.
  destruct (sort_by _ _); [exact OK|]. now apply map_delete_ok.
Qed.

(** The part of C7 that holds: without a filter getLogs returns every
    entry of the store, newest first. *)
Lemma getLogs_unfiltered_newest_first lg :
  Permutation (getLogs None lg) (map_values (entries lg)) /\
  StronglySorted (fun a b => timestamp a >= timestamp b) (getLogs None lg).
Proof.
  unfold getLogs. split; [apply sort_by_perm|].
  pose proof (sort_by_sorted newest_first (fun e => - timestamp e)
                (fun a b => ltac:(unfold newest_first; lia))
                (map_values (entries lg))) as S.
  revert S. generalize (sort_by newest_first (map_values (entries lg))).
  induction 1 as [|x r Hr IH Hx]; constructor; [exact IH|].
  eapply Forall_impl; [|exact Hx]. unfold key_le. intros; lia.
Qed.

(** C7: with a limit getLogs cuts the list in insertion order and sorts
    what is left, so a limit of 1 on a store of two entries returns the
    older entry where the newest-first list cut to one entry holds the
    newer one. *)
Theorem getLogs_limit_cuts_before_sorting :
  map id (map_values (entries Samples.after_two)) = ["id-a"; "id-b"] /\
  map id (getLogs (Some Samples.only_first) Samples.after_two) = ["id-a"] /\
  map id (getLogs_sort_then_limit Samples.only_first Samples.after_two) = ["id-b"].
Proof. vm_compute. repeat split. Qed.

Lemma log_at_capacity_evicts_oldest_witness :
  let o := {| opt_storage := memory; opt_filePath := None;
              opt_includeTimestamps := None; opt_maxEntries := Some 2 |} in
  let env := Samples.at_time "id-c" 3000 in
  store_ok (entries Samples.after_two) /\
  map_size (entries Samples.after_two) = maxEntries (make_config o) /\
  map_has (uuid env) (entries Samples.after_two) = false /\
  map id (map_values (entries (snd (log (make_config o) env
                                        (Samples.note "transaction")
                                        Samples.after_two))))
  = ["id-b"; "id-c"].
Proof.
  cbv zeta.
  assert (store_ok (entries Samples.after_two)) as OK.
  { split; [|repeat constructor].
    repeat constructor; simpl; intuition discriminate. }
  split; [exact OK|]. split; [reflexivity|]. split; [reflexivity|].
  destruct (log_at_capacity_evicts_oldest
              {| opt_storage := memory; opt_filePath := None;
                 opt_includeTimestamps := None; opt_maxEntries := Some 2 |}
              (Samples.at_time "id-c" 3000) (Samples.note "transaction")
              Samples.after_two OK eq_refl eq_refl) as (l1 & old & l2 & _ & _ & E & _).
  reflexivity.
Defined.

End AuditFacts.

(** ** More of the audit log: reading back, filters, statistics *)

Module AuditReads.
Import Audit AuditFacts.
Local Open Scope list_scope.

Lemma map_get_set k v (m : Store) : map_get k (map_set k v m) = Some v.
Proof.
  induction m as [|[k' v'] r IH]; simpl.
  - now rewrite String.eqb_refl.
  - destruct (String.eqb_spec k k') as [->|N]; simpl.
    + now rewrite String.eqb_refl.
    + apply String.eqb_neq in N. now rewrite N.
Qed.

Lemma map_get_set_other k k' v (m : Store) :
  k' <> k -> map_get k' (map_set k v m) = map_get k' m.
Proof.
  intros N. induction m as [|[k2 v2] r IH]; simpl.
  - apply String.eqb_neq in N. now rewrite N.
  - destruct (String.eqb_spec k k2) as [->|N2]; simpl.
    + apply String.eqb_neq in N. now rewrite N.
    + now rewrite IH.
Qed.

(** Below the capacity a call of [log] with a new id adds at the end. *)
Lemma log_appends cfg env e lg :
  map_size (entries lg) < maxEntries cfg ->
  map_has (uuid env) (entries lg) = false ->
  entries (snd (log cfg env e lg))
  = entries lg ++ [(uuid env, full_entry cfg env e)].
Proof.
  intros Hlt Hfresh. unfold log. cbv zeta. cbn [snd].
  rewrite entries_saveToFile. cbn [entries].
  replace (map_size (entries lg) >=? maxEntries cfg) with false
    by (symmetry; lia).
  apply map_set_fresh. now apply map_has_false.
Qed.

(** Below maxEntries a log call with a new id removes nothing: the
    store keeps every entry, in order, and holds the new entry last. *)
Theorem log_below_capacity_keeps_every_entry cfg env e lg :
  map_size (entries lg) < maxEntries cfg ->
  map_has (uuid env) (entries lg) = false ->
  let lg' := snd (log cfg env e lg) in
  entries lg' = entries lg ++ [(uuid env, full_entry cfg env e)] /\
  map_size (entries lg') = map_size (entries lg) + 1 /\
  (forall k, k <> uuid env -> getLog k lg' = getLog k lg).
Proof.
  intros Hlt Hfresh. cbv zeta.
  pose proof (log_appends cfg env e lg Hlt Hfresh) as E.
  split; [exact E|]. split.
  - rewrite E. unfold map_size. rewrite length_app. simpl. lia.
  - intros k Hk. unfold getLog, log. cbv zeta. cbn [snd].
    rewrite entries_saveToFile. cbn [entries].
    replace (map_size (entries lg) >=? maxEntries cfg) with false
      by (symmetry; lia).
    now apply map_get_set_other.
Qed.

Lemma getLog_log cfg env e lg :
  getLog (uuid env) (snd (log cfg env e lg)) = Some (full_entry cfg env e).
Proof.
  unfold getLog, log. cbv zeta. cbn [snd].
  rewrite entries_saveToFile. cbn [entries]. apply map_get_set.
Qed.

(** log returns the id under which getLog finds the entry: the fields of
    the input, the new id, and the clock's time (0 when timestamps are
    switched off), whether or not the write to disk went through. *)
Theorem getLog_finds_logged_entry cfg env e lg :
  fst (log cfg env e lg) = uuid env /\
  getLog (fst (log cfg env e lg)) (snd (log cfg env e lg))
  = Some {| id := uuid env;
            timestamp := if includeTimestamps cfg then now env else 0;
            action := in_action e;
            details := in_details e;
            txSignature := in_txSignature e;
            firewallResult := in_firewallResult e;
            sanitizerResult := in_sanitizerResult e;
            isolatorResult := in_isolatorResult e |}.
Proof.
  split; [reflexivity|]. apply getLog_log.
Qed.

(** *** getLogs *)

Lemma sorted_newest_first l :
  StronglySorted newer_first (sort_by newest_first l).
Proof.
  pose proof (sort_by_sorted newest_first (fun e => - timestamp e)
                (fun a b => ltac:(unfold newest_first; lia)) l) as S.
  revert S. generalize (sort_by newest_first l).
  induction 1 as [|x r Hr IH Hx]; constructor; [exact IH|].
  eapply Forall_impl; [|exact Hx]. unfold key_le, newer_first. intros; lia.
Qed.

Lemma slice_to_In n (l : list AuditEntry) e : In e (slice_to n l) -> In e l.
Proof.
  unfold slice_to.
  destruct (n <? 0); intros H;
    match type of H with In _ (firstn ?k _) =>
      rewrite <- (firstn_skipn k l); apply in_or_app; now left end.
Qed.

Lemma narrow_In {K} (t : K -> bool) o f l e :
  (forall k l', In e (f k l') -> In e l') ->
  In e (narrow t o f l) -> In e l.
Proof.
  intros Hf. unfold narrow. destruct o as [k|]; [|auto].
  destruct (t k); [apply Hf|auto].
Qed.

Lemma narrow_filter_In {K} (t : K -> bool) o (p : K -> AuditEntry -> bool) l e :
  In e (narrow t o (fun k => filter (p k)) l) ->
  In e l /\ (forall k, o = Some k -> t k = true -> p k e = true).
Proof.
  unfold narrow. destruct o as [k|].
  - destruct (t k) eqn:T.
    + intros H. apply filter_In in H as [H1 H2]. split; [exact H1|].
      intros k' [= <-] _. exact H2.
    + intros H. split; [exact H|]. intros k' [= <-]. congruence.
  - intros H. split; [exact H|]. discriminate.
Qed.

(** With a limit and no other filter getLogs returns the entries that
    were inserted first, as many as the limit says, newest first; they
    need not be the newest entries of the store. *)
Theorem getLogs_limit_keeps_first_inserted lg f n :
  limit f = Some n -> 0 < n ->
  by_action f = None -> fromTimestamp f = None ->
  toTimestamp f = None -> by_txSignature f = None ->
  Permutation (getLogs (Some f) lg)
              (firstn (Z.to_nat n) (map_values (entries lg))) /\
  StronglySorted newer_first (getLogs (Some f) lg) /\
  Z.of_nat (List.length (getLogs (Some f) lg)) <= n.
Proof.
  intros Hl Hn Ha Hf Ht Hs. unfold getLogs, apply_filter.
  rewrite Hl, Ha, Hf, Ht, Hs. unfold narrow, Js.truthy_bigint, slice_to.
  replace (n =? 0) with false by (symmetry; lia).
  replace (n <? 0) with false by (symmetry; lia). cbn [negb].
  split; [apply sort_by_perm|]. split; [apply sorted_newest_first|].
  rewrite (Permutation_length (sort_by_perm newest_first _)).
  pose proof (firstn_le_length (Z.to_nat n) (map_values (entries lg))). lia.
Qed.

(** Every entry that getLogs returns is in the store and meets each
    filter that is set: the action and the signature are equal to the
    filter's, the timestamp lies within the two bounds. *)
Theorem getLogs_returns_matching_entries lg f e :
  In e (getLogs (Some f) lg) ->
  In e (map_values (entries lg)) /\
  (forall a, by_action f = Some a -> a <> "" -> action e = a) /\
  (forall t, fromTimestamp f = Some t -> t <> 0 -> timestamp e >= t) /\
  (forall t, toTimestamp f = Some t -> t <> 0 -> timestamp e <= t) /\
  (forall g, by_txSignature f = Some g -> g <> "" -> txSignature e = Some g).
Proof.
  unfold getLogs. intros H.
  apply (Permutation_in _ (sort_by_perm newest_first _)) in H.
  unfold apply_filter in H.
  apply narrow_In in H; [|intros k l'; apply slice_to_In].
  apply narrow_filter_In in H as [H Hsig].
  apply narrow_filter_In in H as [H Hto].
  apply narrow_filter_In in H as [H Hfrom].
  apply narrow_filter_In in H as [H Hact].
  split; [exact H|]. repeat split.
  - intros a Ha Hne. apply String.eqb_eq. apply (Hact a Ha).
    destruct a; [congruence|reflexivity].
  - intros t Ht Hne. specialize (Hfrom t Ht). unfold Js.truthy_bigint in Hfrom.
    apply Z.eqb_neq in Hne. rewrite Hne in Hfrom. specialize (Hfrom eq_refl). lia.
  - intros t Ht Hne. specialize (Hto t Ht). unfold Js.truthy_bigint in Hto.
    apply Z.eqb_neq in Hne. rewrite Hne in Hto. specialize (Hto eq_refl). lia.
  - intros g Hg Hne. specialize (Hsig g Hg).
    destruct g; [congruence|]. specialize (Hsig eq_refl).
    unfold opt_string_eqb in Hsig. destruct (txSignature e) as [x|]; [|discriminate].
    apply String.eqb_eq in Hsig. now subst.
Qed.

(** A filter value that is 0 or the empty string is not applied: a
    limit of 0 returns every entry, a toTimestamp of 0 excludes none. *)
Theorem falsy_filter_values_are_ignored lg f :
  Js.truthy_opt Js.truthy_string (by_action f) = false ->
  Js.truthy_opt Js.truthy_bigint (fromTimestamp f) = false ->
  Js.truthy_opt Js.truthy_bigint (toTimestamp f) = false ->
  Js.truthy_opt Js.truthy_string (by_txSignature f) = false ->
  Js.truthy_opt Js.truthy_bigint (limit f) = false ->
  getLogs (Some f) lg = getLogs None lg.
Proof.
  intros Ha Hf Ht Hs Hl. unfold getLogs, apply_filter, narrow.
  destruct (by_action f); simpl in Ha; rewrite ?Ha;
    destruct (fromTimestamp f); simpl in Hf; rewrite ?Hf;
    destruct (toTimestamp f); simpl in Ht; rewrite ?Ht;
    destruct (by_txSignature f); simpl in Hs; rewrite ?Hs;
    destruct (limit f); simpl in Hl; rewrite ?Hl; reflexivity.
Qed.

(** After clear the log is empty: getLogs returns nothing under every
    filter, getLog finds no id, and a file logger whose write went
    through has saved the empty list. *)
Theorem clear_empties_the_log cfg env lg :
  (forall f, getLogs f (clear cfg env lg) = []) /\
  (forall k, getLog k (clear cfg env lg) = None) /\
  (storage cfg = file -> write_ok env = true ->
   saved (clear cfg env lg) = Some []).
Proof.
  assert (entries (clear cfg env lg) = []) as E
    by (unfold clear; now rewrite entries_saveToFile).
  split; [|split].
  - intros f. unfold getLogs. rewrite E. destruct f as [f|]; [|reflexivity].
    unfold apply_filter, narrow, slice_to. simpl.
    destruct (by_action f) as [a|]; [destruct (Js.truthy_string a)|];
      (destruct (fromTimestamp f) as [t|]; [destruct (Js.truthy_bigint t)|]);
      (destruct (toTimestamp f) as [u|]; [destruct (Js.truthy_bigint u)|]);
      (destruct (by_txSignature f) as [g|]; [destruct (Js.truthy_string g)|]);
      (destruct (limit f) as [n|];
       [destruct (Js.truthy_bigint n); [destruct (n <? 0)|]|]);
      simpl; rewrite ?firstn_nil; reflexivity.
  - intros k. unfold getLog. rewrite E. reflexivity.
  - intros Hs Hw. unfold clear, saveToFile. rewrite Hs, Hw. reflexivity.
Qed.

(** A maxEntries of 0, like a missing one, stands for 10000: the logger
    keeps what it has and adds the new entry as long as it holds fewer
    than 10000 entries. *)
Theorem zero_maxEntries_stands_for_10000 o env e lg :
  opt_maxEntries o = Some 0 \/ opt_maxEntries o = None ->
  map_size (entries lg) < 10000 ->
  map_has (uuid env) (entries lg) = false ->
  maxEntries (make_config o) = 10000 /\
  entries (snd (log (make_config o) env e lg))
  = entries lg ++ [(uuid env, full_entry (make_config o) env e)].
Proof.
  intros Ho Hlt Hfresh.
  assert (maxEntries (make_config o) = 10000) as Hm
    by (unfold make_config; destruct Ho as [-> | ->]; reflexivity).
  split; [exact Hm|]. apply log_appends; [rewrite Hm; exact Hlt|exact Hfresh].
Qed.

(** *** The theorems at work on the sample log *)

Lemma log_below_capacity_keeps_every_entry_witness :
  let env := Samples.at_time "id-c" 3000 in
  map_size (entries Samples.after_two) < maxEntries (Samples.memory_cfg 5) /\
  map_has (uuid env) (entries Samples.after_two) = false /\
  map id (map_values (entries (snd (log (Samples.memory_cfg 5) env
                                        (Samples.note "transaction")
                                        Samples.after_two))))
  = ["id-a"; "id-b"; "id-c"].
Proof.
  cbv zeta. split; [reflexivity|]. split; [reflexivity|].
  rewrite (proj1 (log_below_capacity_keeps_every_entry (Samples.memory_cfg 5)
                    (Samples.at_time "id-c" 3000) (Samples.note "transaction")
                    Samples.after_two eq_refl eq_refl)).
  reflexivity.
Defined.

Lemma getLogs_limit_keeps_first_inserted_witness :
  limit Samples.only_first = Some 1 /\
  map id (map_values (entries Samples.after_two)) = ["id-a"; "id-b"] /\
  Permutation (getLogs (Some Samples.only_first) Samples.after_two)
              (firstn 1 (map_values (entries Samples.after_two))).
Proof.
  split; [reflexivity|]. split; [reflexivity|].
  apply (proj1 (getLogs_limit_keeps_first_inserted Samples.after_two
                  Samples.only_first 1 eq_refl eq_refl eq_refl eq_refl
                  eq_refl eq_refl)).
Defined.

Lemma getLogs_returns_matching_entries_witness :
  let f := {| by_action := Some "sanitize"; fromTimestamp := Some 1500;
              toTimestamp := None; by_txSignature := None; limit := None |} in
  exists e, In e (getLogs (Some f) Samples.after_two) /\
            action e = "sanitize" /\ timestamp e >= 1500.
Proof.
  cbv zeta.
  assert (exists e,
            In e (getLogs (Some {| by_action := Some "sanitize";
                                   fromTimestamp := Some 1500;
                                   toTimestamp := None; by_txSignature := None;
                                   limit := None |}) Samples.after_two))
    as [e He] by (eexists; left; reflexivity).
  exists e. split; [exact He|].
  destruct (getLogs_returns_matching_entries _ _ _ He) as (_ & Ha & Hf & _).
  split; [apply (Ha _ eq_refl); discriminate|apply (Hf _ eq_refl); discriminate].
Defined.

Lemma falsy_filter_values_are_ignored_witness :
  let f := {| by_action := Some ""; fromTimestamp := None;
              toTimestamp := Some 0; by_txSignature := None; limit := Some 0 |} in
  map id (getLogs (Some f) Samples.after_two) = ["id-b"; "id-a"].
Proof.
  cbv zeta.
  rewrite (falsy_filter_values_are_ignored Samples.after_two
             {| by_action := Some ""; fromTimestamp := None;
                toTimestamp := Some 0; by_txSignature := None; limit := Some 0 |}
             eq_refl eq_refl eq_refl eq_refl eq_refl).
  reflexivity.
Defined.

Lemma zero_maxEntries_stands_for_10000_witness :
  let o := {| opt_storage := memory; opt_filePath := None;
              opt_includeTimestamps := None; opt_maxEntries := Some 0 |} in
  let env := Samples.at_time "id-c" 3000 in
  map id (map_values (entries (snd (log (make_config o) env
                                        (Samples.note "transaction")
                                        Samples.after_two))))
  = ["id-a"; "id-b"; "id-c"].
Proof.
  cbv zeta.
  rewrite (proj2 (zero_maxEntries_stands_for_10000
                    {| opt_storage := memory; opt_filePath := None;
                       opt_includeTimestamps := None; opt_maxEntries := Some 0 |}
                    (Samples.at_time "id-c" 3000) (Samples.note "transaction")
                    Samples.after_two (or_introl eq_refl) eq_refl eq_refl)).
  reflexivity.
Defined.

End AuditReads.

(** ** The statistics of the log *)

Module StatsFacts.
Import Audit.
Local Open Scope list_scope.

Lemma fold_total es : forall acc,
  totalEntries (fold_left count_entry es acc) = totalEntries acc.
Proof.
  induction es as [|e es IH]; intros acc; simpl; [reflexivity|].
  now rewrite IH.
Qed.

Lemma fold_blocked es : forall acc,
  blockedTransactions (fold_left count_entry es acc)
  = blockedTransactions acc + Z.of_nat (List.length (filter is_blocked es)).
Proof.
  induction es as [|e es IH]; intros acc; simpl; [lia|].
  rewrite IH. simpl. destruct (is_blocked e); simpl; lia.
Qed.

Lemma bump_other k a own : String.eqb a k = false -> bump k own a = own a.
Proof.
  intros N. unfold bump. destruct (String.eqb k "__proto__"); [reflexivity|].
  now rewrite N.
Qed.

Lemma bump_same a own n :
  inherited a = false -> a <> "__proto__" -> 0 <= n ->
  own a = (if n =? 0 then None else Some (Num n)) ->
  bump a own a = Some (Num (n + 1)).
Proof.
  intros Hi Hp Hn Ho. unfold bump. apply String.eqb_neq in Hp. rewrite Hp.
  rewrite String.eqb_refl, Ho, Hi.
  destruct (Z.eqb_spec n 0) as [->|N]; [reflexivity|].
  unfold Js.truthy_bigint. apply Z.eqb_neq in N. now rewrite N.
Qed.

Lemma fold_byAction a es :
  inherited a = false -> a <> "__proto__" ->
  forall acc n, 0 <= n ->
  byAction acc a = (if n =? 0 then None else Some (Num n)) ->
  byAction (fold_left count_entry es acc) a
  = (if n + count_action a es =? 0 then None
     else Some (Num (n + count_action a es))).
Proof.
  intros Hi Hp. unfold count_action.
  induction es as [|e es IH]; intros acc n Hn Ho; simpl.
  - now rewrite Z.add_0_r.
  - destruct (String.eqb_spec (action e) a) as [E|N].
    + rewrite (IH (count_entry acc e) (n + 1)); [|lia|].
      * simpl List.length. replace (n + 1 + Z.of_nat (List.length
          (filter (fun e0 => String.eqb (action e0) a) es)))
          with (n + Z.of_nat (S (List.length
          (filter (fun e0 => String.eqb (action e0) a) es)))) by lia.
        reflexivity.
      * simpl. rewrite E. replace (n + 1 =? 0) with false by (symmetry; lia).
        now apply bump_same.
    + apply IH; [exact Hn|]. simpl. rewrite bump_other; [exact Ho|].
      apply String.eqb_neq. congruence.
Qed.

(** byAction holds, for each action, the number of the entries that
    carry it, and no property for an action that no entry carries; the
    actions that are names of members of Object.prototype are apart. *)
Theorem byAction_counts_each_action lg a :
  inherited a = false -> a <> "__proto__" ->
  let n := count_action a (map_values (entries lg)) in
  byAction (getStats lg) a = (if n =? 0 then None else Some (Num n)).
Proof.
  intros Hi Hp. cbv zeta. unfold getStats.
  rewrite (fold_byAction a _ Hi Hp _ 0); [reflexivity|lia|reflexivity].
Qed.

Lemma byAction_counts_each_action_witness :
  byAction (getStats Samples.after_two) "redact" = Some (Num 1) /\
  byAction (getStats Samples.after_two) "transaction" = None.
Proof.
  split.
  - rewrite (byAction_counts_each_action Samples.after_two "redact");
      [reflexivity|reflexivity|discriminate].
  - rewrite (byAction_counts_each_action Samples.after_two "transaction");
      [reflexivity|reflexivity|discriminate].
Defined.

End StatsFacts.

(** ** The guard's one call: decide, then log *)

Module GuardFacts.
Import AuditFacts AuditReads StatsFacts.
Local Open Scope list_scope.

(** [checkTransaction] in terms of its two steps. *)
Lemma checkTransaction_steps g env tx action st :
  let d := Firewall.check (Guard.firewall_config g) (Guard.chain_env env)
                          (Guard.spend st) tx in
  let l := Audit.log (Guard.audit_config g) (Guard.log_env env)
                     (Guard.logged_input tx action (fst d)) (Guard.trail st) in
  Guard.checkTransaction g env tx action st
  = ({| Guard.allowed := Firewall.allowed (fst d);
        Guard.reason := Firewall.reason (fst d);
        Guard.warnings := Firewall.warnings (fst d);
        Guard.firewall := fst d;
        Guard.auditId := Some (fst l) |},
     {| Guard.spend := snd d; Guard.trail := snd l |}).
Proof.
  cbv zeta.
  unfold Guard.checkTransaction, Audit.logTransactionCheck, Guard.logged_input.
  destruct (Firewall.check _ _ _ _) as [r sp]. cbn [fst snd].
  destruct (Audit.log _ _ _ _) as [k lg]. reflexivity.
Qed.

(** Every call of checkTransaction returns the firewall's decision and
    leaves it in the audit log, allowed or refused: getLog of the
    returned auditId finds an entry with the action of the call
    ('transaction' when none is given) and the decision and its reason. *)
Theorem checkTransaction_logs_its_decision g env tx action st :
  let r := fst (Guard.checkTransaction g env tx action st) in
  let st' := snd (Guard.checkTransaction g env tx action st) in
  let decision := Firewall.check (Guard.firewall_config g) (Guard.chain_env env)
                                 (Guard.spend st) tx in
  Guard.firewall r = fst decision /\
  Guard.allowed r = Firewall.allowed (fst decision) /\
  Guard.reason r = Firewall.reason (fst decision) /\
  Guard.warnings r = Firewall.warnings (fst decision) /\
  Guard.spend st' = snd decision /\
  exists k e,
    Guard.auditId r = Some k /\
    Audit.getLog k (Guard.trail st') = Some e /\
    Audit.action e = Js.nullish action "transaction" /\
    Audit.firewallResult e
    = Some {| Audit.fw_allowed := Guard.allowed r;
              Audit.fw_reason := Guard.reason r |}.
Proof.
  cbv zeta. rewrite checkTransaction_steps. cbv zeta. cbn [fst snd].
  cbn [Guard.firewall Guard.allowed Guard.reason Guard.warnings Guard.spend
       Guard.trail Guard.auditId].
  repeat split. eexists. eexists. split; [reflexivity|].
  split; [apply getLog_log|]. split; reflexivity.
Qed.

Lemma run_trail g calls : forall st,
  NoDup (map Guard.call_id calls) ->
  (forall c, In c calls ->
     Audit.map_has (Guard.call_id c) (Audit.entries (Guard.trail st)) = false) ->
  Audit.map_size (Audit.entries (Guard.trail st)) + Z.of_nat (List.length calls)
  <= Audit.maxEntries (Guard.audit_config g) ->
  exists added,
    Audit.entries (Guard.trail (snd (Guard.run g st calls)))
    = Audit.entries (Guard.trail st) ++ added /\
    List.length added = List.length calls /\
    List.length (fst (Guard.run g st calls)) = List.length calls /\
    Z.of_nat (List.length (filter Audit.is_blocked (Audit.map_values added)))
    = Guard.refused (fst (Guard.run g st calls)).
Proof.
  induction calls as [|[[env tx] action] rest IH]; intros st ND Hfresh Hcap.
  - exists []. simpl. rewrite app_nil_r. repeat split.
  - simpl in Hcap. inversion ND as [|? ? Hnew ND']; subst.
    cbn [Guard.run]. rewrite checkTransaction_steps. cbv zeta.
    set (r := fst (Firewall.check (Guard.firewall_config g)
                     (Guard.chain_env env) (Guard.spend st) tx)).
    set (sp := snd (Firewall.check (Guard.firewall_config g)
                      (Guard.chain_env env) (Guard.spend st) tx)).
    assert (Audit.map_has (Audit.uuid (Guard.log_env env))
              (Audit.entries (Guard.trail st)) = false) as Hf
      by (apply (Hfresh (env, tx, action)); now left).
    pose proof (log_appends (Guard.audit_config g) (Guard.log_env env)
                  (Guard.logged_input tx action r) (Guard.trail st)
                  ltac:(lia) Hf) as Happ.
    set (lg := snd (Audit.log (Guard.audit_config g) (Guard.log_env env)
                      (Guard.logged_input tx action r) (Guard.trail st))) in *.
    set (st1 := {| Guard.spend := sp; Guard.trail := lg |}).
    destruct (IH st1) as (added & Ha & Hlen & Hrs & Hblk).
    + exact ND'.
    + intros c Hc. simpl. rewrite Happ. apply map_has_false.
      rewrite map_app. intros I. apply in_app_or in I as [I|I].
      * pose proof (Hfresh c (or_intror Hc)) as F.
        apply map_has_false in F. now apply F.
      * simpl in I. destruct I as [I|[]]. apply Hnew.
        change (Guard.call_id (env, tx, action))
          with (Audit.uuid (Guard.log_env env)).
        rewrite I. now apply in_map.
    + simpl. rewrite Happ. unfold Audit.map_size in *. rewrite length_app.
      simpl. lia.
    + destruct (Guard.run g st1 rest) as [rs st2] eqn:R. cbn [fst snd] in *.
      eexists (_ :: added). split; [|split; [|split]].
      * rewrite Ha. simpl. rewrite Happ, <- app_assoc. reflexivity.
      * simpl. now rewrite Hlen.
      * simpl. now rewrite Hrs.
      * unfold Guard.refused in *. cbn [Audit.map_values map snd filter].
        unfold Audit.is_blocked at 1. cbn.
        destruct (Firewall.allowed r); cbn; fold (Audit.map_values added);
          unfold Audit.map_values in *; lia.
Qed.

(** On a guard whose log is empty, after any run of checkTransaction
    calls with distinct ids that fits within maxEntries, getStats counts
    one entry per call and as many blocked transactions as calls were
    refused. *)
Theorem stats_count_the_refusals g st calls :
  Audit.entries (Guard.trail st) = [] ->
  NoDup (map Guard.call_id calls) ->
  Z.of_nat (List.length calls) <= Audit.maxEntries (Guard.audit_config g) ->
  let rs := fst (Guard.run g st calls) in
  let stats := Guard.getStats (snd (Guard.run g st calls)) in
  Audit.totalEntries stats = Z.of_nat (List.length calls) /\
  Audit.blockedTransactions stats = Guard.refused rs /\
  0 <= Audit.blockedTransactions stats <= Audit.totalEntries stats.
Proof.
  intros Hempty ND Hcap. cbv zeta.
  destruct (run_trail g calls st ND) as (added & Ha & Hlen & Hrs & Hblk).
  - intros c _. rewrite Hempty. reflexivity.
  - rewrite Hempty. simpl. lia.
  - unfold Guard.getStats, Audit.getStats. rewrite fold_total, fold_blocked.
    rewrite Ha, Hempty. simpl. unfold Audit.map_values in *.
    rewrite length_map, Hlen, Hblk. split; [reflexivity|]. split; [lia|].
    unfold Guard.refused.
    pose proof (filter_length_le (fun r => negb (Guard.allowed r))
                  (fst (Guard.run g st calls))). lia.
Qed.

Lemma stats_count_the_refusals_witness :
  let stats := Guard.getStats (snd (Guard.run Guard.Samples.parts
                                      Guard.Samples.fresh
                                      Guard.Samples.two_calls)) in
  map Guard.allowed (fst (Guard.run Guard.Samples.parts Guard.Samples.fresh
                            Guard.Samples.two_calls)) = [true; false] /\
  Audit.totalEntries stats = 2 /\ Audit.blockedTransactions stats = 1.
Proof.
  cbv zeta. split; [vm_compute; reflexivity|].
  destruct (stats_count_the_refusals Guard.Samples.parts Guard.Samples.fresh
              Guard.Samples.two_calls) as (Ht & Hb & _).
  - reflexivity.
  - repeat constructor; simpl; intuition discriminate.
  - vm_compute. discriminate.
  - rewrite Ht, Hb. split; vm_compute; reflexivity.
Defined.

End GuardFacts.

(** ** The text cleaner *)

Module CleanerFacts.
Import Cleaner.
Local Open Scope list_scope.

Lemma len_app a b : len (a ++ b) = len a + len b.
Proof. unfold len. rewrite length_app. lia. Qed.

Lemma len_firstn n (t : text) : len (firstn n t) = Z.min (Z.of_nat n) (len t).
Proof. unfold len. rewrite length_firstn. lia. Qed.

Lemma slice_0 b (t : text) :
  0 <= b <= len t -> slice 0 b t = firstn (Z.to_nat b) t.
Proof.
  intros H. unfold slice, index_from.
  replace (0 <? 0) with false by reflexivity.
  replace (b <? 0) with false by (symmetry; lia).
  unfold len in *. rewrite Z.min_l by lia. rewrite Z.min_l by lia.
  simpl. now rewrite Z.sub_0_r.
Qed.

(** With room for the three dots, truncate keeps its promise: the
    result is no longer than maxLength; a text that fits is returned as
    it is, a longer one is cut to its first maxLength - 3 code units and
    the dots. *)
Theorem truncate_fits t m :
  3 <= m ->
  len (truncate t m) <= m /\
  (len t <= m -> truncate t m = t) /\
  (m < len t -> truncate t m = firstn (Z.to_nat (m - 3)) t ++ dots).
Proof.
  intros Hm. unfold truncate.
  destruct (Z.leb_spec (len t) m) as [L|L].
  - split; [exact L|]. split; [reflexivity|lia].
  - rewrite slice_0 by lia. split; [|split; [lia|reflexivity]].
    rewrite len_app, len_firstn. unfold dots, len at 2. simpl. lia.
Qed.

Lemma truncate_fits_witness :
  truncate (units "transfer all funds") 10 = units "transfe...".
Proof.
  rewrite (proj2 (proj2 (truncate_fits (units "transfer all funds") 10
                           ltac:(discriminate)))); [reflexivity|reflexivity].
Defined.

Lemma slice_tail4 (a : text) :
  4 <= len a -> slice_from (-4) a = skipn (List.length a - 4) a.
Proof.
  intros H. unfold slice_from, slice, index_from.
  replace (-4 <? 0) with true by reflexivity.
  replace (len a <? 0) with false by (symmetry; lia).
  rewrite Z.max_l by lia. rewrite Z.min_l by lia.
  replace (Z.to_nat (len a + -4)) with (List.length a - 4)%nat
    by (unfold len in *; lia).
  apply firstn_all2. rewrite length_skipn. unfold len in *. lia.
Qed.

Lemma maskAddress_long a :
  10 <= len a ->
  maskAddress a = firstn 4 a ++ dots ++ skipn (List.length a - 4) a.
Proof.
  intros H. unfold maskAddress.
  replace (len a <? 10) with false by (symmetry; lia).
  rewrite slice_0 by lia. rewrite slice_tail4 by lia. reflexivity.
Qed.

(** Of an address of ten code units or more maskAddress shows the first
    four and the last four around three dots, eleven code units in all;
    masking what is masked changes nothing. *)
Theorem maskAddress_shows_eight_units a :
  10 <= len a ->
  maskAddress a = firstn 4 a ++ dots ++ skipn (List.length a - 4) a /\
  len (maskAddress a) = 11 /\
  maskAddress (maskAddress a) = maskAddress a.
Proof.
  intros H. pose proof (maskAddress_long a H) as E.
  assert (List.length (firstn 4 a) = 4%nat) as H4
    by (rewrite length_firstn; unfold len in H; lia).
  assert (List.length (skipn (List.length a - 4) a) = 4%nat) as T4
    by (rewrite length_skipn; unfold len in H; lia).
  destruct (firstn 4 a) as [|x1 [|x2 [|x3 [|x4 [|]]]]]; try discriminate.
  destruct (skipn (List.length a - 4) a) as [|y1 [|y2 [|y3 [|y4 [|]]]]];
    try discriminate.
  split; [exact E|]. rewrite E. split; reflexivity.
Qed.

Lemma maskAddress_shows_eight_units_witness :
  maskAddress (units "0x833589fCD6eDb6E08f4c7C32D4f71b54bdA02913")
  = units "0x83...2913".
Proof.
  rewrite (proj1 (maskAddress_shows_eight_units
                    (units "0x833589fCD6eDb6E08f4c7C32D4f71b54bdA02913")
                    ltac:(discriminate))).
  reflexivity.
Defined.

(** *** escapeSpecialChars *)

Lemma replace_char_map c r t :
  replace_char c [r] t = map (fun x => if x =? c then r else x) t.
Proof.
  unfold replace_char. induction t as [|x t IH]; simpl; [reflexivity|].
  rewrite IH. destruct (x =? c); reflexivity.
Qed.

Lemma escapeSpecialChars_map t :
  escapeSpecialChars t = map escape_unit t.
Proof.
  unfold escapeSpecialChars. rewrite !replace_char_map, !map_map.
  reflexivity.
Qed.

Lemma escape_unit_fixed c :
  escape_unit (escape_unit c) = escape_unit c /\
  ~ In (escape_unit c) [0x5B; 0x5D; 0x7B; 0x7D; 0x3C; 0x3E; 0x7C; 0x60].
Proof.
  assert (In c [0x5B; 0x5D; 0x7B; 0x7D; 0x3C; 0x3E; 0x7C; 0x60]
          \/ ~ In c [0x5B; 0x5D; 0x7B; 0x7D; 0x3C; 0x3E; 0x7C; 0x60]) as [H|H]
    by (simpl; lia).
  - simpl in H.
    repeat (destruct H as [<-|H]; [vm_compute; split; [reflexivity|lia]|]).
    destruct H.
  - assert (escape_unit c = c) as ->; [|split; [|exact H]].
    + simpl in H. unfold escape_unit. cbv zeta.
      repeat match goal with
             | |- context [c =? ?k] =>
                 replace (c =? k) with false by (symmetry; lia)
             end.
      reflexivity.
    + simpl in H. unfold escape_unit. cbv zeta.
      repeat match goal with
             | |- context [c =? ?k] =>
                 replace (c =? k) with false by (symmetry; lia)
             end.
      reflexivity.
Qed.

(** escapeSpecialChars leaves none of the eight characters it escapes
    (the brackets, the braces, the angle brackets, the bar and the
    backtick), keeps the length of the text, and changes nothing in a
    text that it has escaped. *)
Theorem escapeSpecialChars_leaves_none t :
  (forall c, In c (escapeSpecialChars t) ->
             ~ In c [0x5B; 0x5D; 0x7B; 0x7D; 0x3C; 0x3E; 0x7C; 0x60]) /\
  len (escapeSpecialChars t) = len t /\
  escapeSpecialChars (escapeSpecialChars t) = escapeSpecialChars t.
Proof.
  rewrite !escapeSpecialChars_map. split; [|split].
  - intros c Hc. apply in_map_iff in Hc as (x & <- & _).
    apply escape_unit_fixed.
  - unfold len. now rewrite length_map.
  - rewrite map_map. apply map_ext. intros c. apply escape_unit_fixed.
Qed.

(** *** stripDangerousUnicode *)

Lemma strip_In class t c :
  In c (strip class t) -> In c t /\ class c = false.
Proof.
  unfold strip. intros H. apply filter_In in H as [H1 H2].
  split; [exact H1|]. now destruct (class c).
Qed.

Lemma kept_run_In min run c : In c (kept_run min run) -> In c run.
Proof. unfold kept_run. destruct (Nat.leb _ _); [intros []|auto]. Qed.

Lemma strip_runs_In class min t : forall run c,
  In c (strip_runs class min run t) -> In c run \/ In c t.
Proof.
  induction t as [|x t IH]; intros run c H; simpl in H.
  - left. eapply kept_run_In; eauto.
  - destruct (class x).
    + apply IH in H as [H|H]; [|right; now right].
      apply in_app_or in H as [H|[->|[]]]; [now left|right; now left].
    + apply in_app_or in H as [H|[->|H]].
      * left. eapply kept_run_In; eauto.
      * right. now left.
      * apply IH in H as [[]|H]. right. now right.
Qed.

(** stripDangerousUnicode only deletes, and what it leaves lies below
    U+0030 or above U+F8FF: with the control, zero-width, direction and
    private-use characters it deletes every digit and every letter. *)
Theorem stripDangerousUnicode_deletes_letters_and_digits t c :
  In c (stripDangerousUnicode t) ->
  In c t /\ (c < 0x30 \/ 0xF8FF < c) /\
  CONTROL_CHARS c = false /\ ZERO_WIDTH c = false /\ RTL_OVERRIDE c = false.
Proof.
  unfold stripDangerousUnicode, normalizeCombining, stripTagChars,
    stripPrivateUse, stripControlChars, stripRTLOverride, stripZeroWidth.
  intros H. apply strip_runs_In in H as [[]|H].
  apply strip_In in H as [H Htag]. apply strip_In in H as [H Hpriv].
  apply strip_In in H as [H Hctl]. apply strip_In in H as [H Hrtl].
  apply strip_In in H as [H Hzw].
  split; [exact H|]. split; [|auto].
  unfold TAG_CHARS, PRIVATE_USE, between, one_of in *. simpl in *.
  apply orb_false_elim in Htag as [Htag _].
  apply orb_false_elim in Htag as [_ Htag].
  apply andb_false_iff in Htag. apply andb_false_iff in Hpriv. lia.
Qed.

Lemma stripDangerousUnicode_deletes_letters_and_digits_witness :
  stripDangerousUnicode (units "Send 5 SOL!") = units "  !" /\
  0x21 < 0x30.
Proof.
  split; [reflexivity|].
  assert (In 0x21 (stripDangerousUnicode (units "Send 5 SOL!"))) as H
    by (right; right; left; reflexivity).
  destruct (stripDangerousUnicode_deletes_letters_and_digits _ _ H)
    as (_ & [L|L] & _); [exact L|discriminate].
Defined.

(** *** normalizeWhitespace *)

Lemma replace_char_In c r t x :
  In x (replace_char c r t) -> (In x t /\ x <> c) \/ In x r.
Proof.
  unfold replace_char. intros H. apply in_flat_map in H as (y & Hy & H).
  destruct (Z.eqb_spec y c) as [->|N]; [now right|].
  destruct H as [<-|[]]. left. now split.
Qed.

Lemma collapse_blanks_In b t x :
  In x (collapse_blanks b t) -> (In x t /\ is_blank x = false) \/ x = 0x20.
Proof.
  revert b. induction t as [|c r IH]; intros b H; simpl in H; [destruct H|].
  destruct (is_blank c) eqn:B.
  - destruct b.
    + apply IH in H as [[H1 H2]|H]; [left; split; [now right|exact H2]|now right].
    + destruct H as [<-|H]; [now right|].
      apply IH in H as [[H1 H2]|H]; [left; split; [now right|exact H2]|now right].
  - destruct H as [<-|H]; [left; split; [now left|exact B]|].
    apply IH in H as [[H1 H2]|H]; [left; split; [now right|exact H2]|now right].
Qed.

Lemma squeeze_newlines_In n t x : In x (squeeze_newlines n t) -> In x t.
Proof.
  revert n. induction t as [|c r IH]; intros n H; simpl in H; [destruct H|].
  destruct (c =? 0x0A); [destruct (Nat.ltb n 2)|];
    try (destruct H as [<-|H]; [now left|]); right; eapply IH; eauto.
Qed.

Lemma trimStart_suffix t : exists p, t = p ++ trimStart t.
Proof.
  induction t as [|c r [p IH]]; simpl; [now exists []|].
  destruct (is_space c); [|now exists []].
  exists (c :: p). simpl. now rewrite <- IH.
Qed.

Lemma trimEnd_prefix t : exists s, t = trimEnd t ++ s.
Proof.
  unfold trimEnd. destruct (trimStart_suffix (rev t)) as [p E].
  exists (rev p). rewrite <- rev_app_distr, <- E. now rewrite rev_involutive.
Qed.

Lemma trim_In t x : In x (trim t) -> In x t.
Proof.
  unfold trim. intros H.
  destruct (trimEnd_prefix (trimStart t)) as [s E].
  destruct (trimStart_suffix t) as [p F].
  rewrite F. apply in_or_app. right. rewrite E. apply in_or_app. now left.
Qed.

(** The fixed points of the five steps. *)

Lemma crlf_to_lf_fixed t : ~ In 0x0D t -> crlf_to_lf t = t.
Proof.
  induction t as [|c r IH]; intros H; [reflexivity|].
  simpl. destruct r as [|d r']; [reflexivity|].
  replace (c =? 0x0D) with false
    by (symmetry; apply Z.eqb_neq; intros ->; apply H; now left).
  cbn [andb]. f_equal. apply IH. intros I. apply H. now right.
Qed.

Lemma cr_to_lf_fixed t : ~ In 0x0D t -> cr_to_lf t = t.
Proof.
  unfold cr_to_lf. rewrite replace_char_map.
  induction t as [|c r IH]; intros H; [reflexivity|]. simpl.
  replace (c =? 0x0D) with false
    by (symmetry; apply Z.eqb_neq; intros ->; apply H; now left).
  f_equal. apply IH. intros I. apply H. now right.
Qed.

Lemma collapse_blanks_single t : forall b,
  single_blanks b (collapse_blanks b t) = true.
Proof.
  induction t as [|c r IH]; intros b; simpl; [reflexivity|].
  destruct (is_blank c) eqn:B.
  - destruct b; [apply IH|]. simpl. apply IH.
  - simpl. rewrite B. apply IH.
Qed.

Lemma collapse_blanks_fixed t : forall b,
  single_blanks b t = true -> collapse_blanks b t = t.
Proof.
  induction t as [|c r IH]; intros b H; simpl in *; [reflexivity|].
  destruct (is_blank c).
  - apply andb_prop in H as [H H3]. apply andb_prop in H as [H1 H2].
    destruct b; [discriminate|]. apply Z.eqb_eq in H2. subst c.
    f_equal. now apply IH.
  - f_equal. now apply IH.
Qed.

Lemma single_blanks_weaken t : forall b,
  single_blanks b t = true -> single_blanks false t = true.
Proof.
  destruct t as [|c r]; intros b H; simpl in *; [reflexivity|].
  destruct (is_blank c); [|exact H].
  apply andb_prop in H as [H H3]. apply andb_prop in H as [_ H2].
  now rewrite H2, H3.
Qed.

Lemma single_blanks_tail c r b :
  single_blanks b (c :: r) = true -> single_blanks false r = true.
Proof.
  simpl. destruct (is_blank c); [|auto]. intros H.
  apply andb_prop in H as [_ H]. eapply single_blanks_weaken; eauto.
Qed.

Lemma single_blanks_suffix p : forall t b,
  single_blanks b (p ++ t) = true -> single_blanks false t = true.
Proof.
  induction p as [|c p IH]; intros t b H; simpl app in H.
  - eapply single_blanks_weaken; eauto.
  - apply single_blanks_tail in H. eapply IH; eauto.
Qed.

Lemma single_blanks_prefix a : forall s b,
  single_blanks b (a ++ s) = true -> single_blanks b a = true.
Proof.
  induction a as [|c a IH]; intros s b H; simpl in *; [reflexivity|].
  destruct (is_blank c).
  - apply andb_prop in H as [H H3]. rewrite H. simpl. eapply IH; eauto.
  - eapply IH; eauto.
Qed.

Lemma squeeze_keeps_single_blanks t : forall b n,
  single_blanks b t = true -> (n <> 0%nat -> b = false) ->
  single_blanks b (squeeze_newlines n t) = true.
Proof.
  induction t as [|c r IH]; intros b n H Hn; simpl in *; [reflexivity|].
  destruct (Z.eqb_spec c 0x0A) as [->|N].
  - change (is_blank 0x0A) with false in H.
    destruct (Nat.ltb n 2) eqn:L.
    + simpl. change (is_blank 0x0A) with false. apply IH; [exact H|reflexivity].
    + assert (b = false) as -> by (apply Hn; intros ->; discriminate).
      apply IH; [exact H|reflexivity].
  - simpl. destruct (is_blank c).
    + apply andb_prop in H as [H H3]. rewrite H. simpl.
      apply IH; [exact H3|congruence].
    + apply IH; [exact H|reflexivity].
Qed.

Lemma squeeze_newlines_few t : forall n,
  (n <= 2)%nat -> few_newlines n (squeeze_newlines n t) = true.
Proof.
  induction t as [|c r IH]; intros n Hn; simpl; [reflexivity|].
  destruct (c =? 0x0A) eqn:C.
  - destruct (Nat.ltb n 2) eqn:L.
    + simpl. rewrite C, L. simpl. apply IH. apply Nat.ltb_lt in L. lia.
    + apply IH. exact Hn.
  - simpl. rewrite C. apply IH. lia.
Qed.

Lemma squeeze_newlines_fixed t : forall n,
  few_newlines n t = true -> squeeze_newlines n t = t.
Proof.
  induction t as [|c r IH]; intros n H; simpl in *; [reflexivity|].
  destruct (c =? 0x0A).
  - apply andb_prop in H as [-> H]. f_equal. now apply IH.
  - f_equal. now apply IH.
Qed.

Lemma few_newlines_weaken t : forall n m,
  few_newlines n t = true -> (m <= n)%nat -> few_newlines m t = true.
Proof.
  induction t as [|c r IH]; intros n m H Hm; simpl in *; [reflexivity|].
  destruct (c =? 0x0A); [|exact H].
  apply andb_prop in H as [H1 H2]. apply Nat.ltb_lt in H1.
  apply andb_true_intro. split; [apply Nat.ltb_lt; lia|].
  apply (IH (S n)); [exact H2|lia].
Qed.

Lemma few_newlines_suffix p : forall t n,
  few_newlines n (p ++ t) = true -> few_newlines 0 t = true.
Proof.
  induction p as [|c p IH]; intros t n H; simpl app in H.
  - eapply few_newlines_weaken; [exact H|lia].
  - simpl in H. destruct (c =? 0x0A); [|eapply IH; eauto].
    apply andb_prop in H as [_ H]. eapply IH; eauto.
Qed.

Lemma few_newlines_prefix a : forall s n,
  few_newlines n (a ++ s) = true -> few_newlines n a = true.
Proof.
  induction a as [|c a IH]; intros s n H; simpl in *; [reflexivity|].
  destruct (c =? 0x0A).
  - apply andb_prop in H as [H H3]. rewrite H. simpl. eapply IH; eauto.
  - eapply IH; eauto.
Qed.

Lemma trimStart_head t :
  match trimStart t with c :: _ => is_space c = false | [] => True end.
Proof.
  induction t as [|c r IH]; simpl; [exact I|].
  destruct (is_space c) eqn:S; [exact IH|exact S].
Qed.

Lemma trimStart_fixed t :
  match t with c :: _ => is_space c = false | [] => True end ->
  trimStart t = t.
Proof. destruct t as [|c r]; [reflexivity|]. simpl. now intros ->. Qed.

Lemma trimStart_keeps_last l c :
  is_space c = false -> exists p, trimStart (l ++ [c]) = p ++ [c].
Proof.
  intros Hc. induction l as [|d l [p IH]]; simpl.
  - rewrite Hc. now exists [].
  - destruct (is_space d); [now exists p|]. now exists (d :: l).
Qed.

Lemma trimEnd_of_trimmed_start y :
  match y with c :: _ => is_space c = false | [] => True end ->
  match trimEnd y with c :: _ => is_space c = false | [] => True end.
Proof.
  destruct y as [|c r]; [intros _; exact I|]. intros Hc.
  unfold trimEnd. simpl rev.
  destruct (trimStart_keeps_last (rev r) c Hc) as [p ->].
  rewrite rev_app_distr. simpl. exact Hc.
Qed.

Lemma trim_fixed t : trim (trim t) = trim t.
Proof.
  unfold trim.
  rewrite (trimStart_fixed (trimEnd (trimStart t)))
    by (apply trimEnd_of_trimmed_start, trimStart_head).
  unfold trimEnd. rewrite rev_involutive.
  rewrite (trimStart_fixed (trimStart _)) by apply trimStart_head.
  reflexivity.
Qed.

Lemma trim_trimmed t : trimmed (trim t) = true.
Proof.
  pose proof (trimEnd_of_trimmed_start _ (trimStart_head t)) as Hh.
  unfold trim in *. unfold trimmed.
  destruct (trimEnd (trimStart t)) as [|c r] eqn:E; [reflexivity|].
  rewrite Hh. unfold trimEnd in E.
  pose proof (trimStart_head (rev (trimStart t))) as Hl.
  destruct (trimStart (rev (trimStart t))) as [|z zs]; [discriminate|].
  cbn [rev] in E. rewrite <- E at 1. rewrite last_last, Hl. reflexivity.
Qed.

(** The result of normalizeWhitespace holds no carriage return and no
    tab, no two spaces and no three newlines in a row, and neither
    starts nor ends with white space; normalizing it again changes
    nothing. *)
Theorem normalizeWhitespace_settles t :
  let u := normalizeWhitespace t in
  ~ In 0x0D u /\ ~ In 0x09 u /\
  single_blanks false u = true /\ few_newlines 0 u = true /\
  trimmed u = true /\
  normalizeWhitespace u = u.
Proof.
  cbv zeta. unfold normalizeWhitespace.
  set (v1 := cr_to_lf (crlf_to_lf t)).
  set (v2 := collapse_blanks false v1).
  set (v3 := squeeze_newlines 0 v2).
  assert (forall x, In x (trim v3) -> x <> 0x0D /\ x <> 0x09) as Hin.
  { intros x H. apply trim_In, squeeze_newlines_In in H.
    apply collapse_blanks_In in H as [[H B]| ->]; [|split; discriminate].
    split; [|intros ->; discriminate].
    apply replace_char_In in H as [[_ H]|[<-|[]]]; [exact H|discriminate]. }
  assert (~ In 0x0D (trim v3)) as Hcr by (intros H; now apply Hin in H).
  assert (single_blanks false v3 = true) as S3
    by (apply squeeze_keeps_single_blanks;
        [apply collapse_blanks_single|congruence]).
  assert (few_newlines 0 v3 = true) as F3 by (apply squeeze_newlines_few; lia).
  destruct (trimStart_suffix v3) as [p Ep].
  destruct (trimEnd_prefix (trimStart v3)) as [s Es].
  assert (single_blanks false (trim v3) = true) as S4.
  { rewrite Ep in S3. apply single_blanks_suffix in S3. rewrite Es in S3.
    now apply single_blanks_prefix in S3. }
  assert (few_newlines 0 (trim v3) = true) as F4.
  { rewrite Ep in F3. apply few_newlines_suffix in F3. rewrite Es in F3.
    now apply few_newlines_prefix in F3. }
  split; [exact Hcr|]. split; [intros H; now apply Hin in H|].
  split; [exact S4|]. split; [exact F4|]. split; [apply trim_trimmed|].
  rewrite (crlf_to_lf_fixed _ Hcr), (cr_to_lf_fixed _ Hcr).
  rewrite (collapse_blanks_fixed _ _ S4), (squeeze_newlines_fixed _ _ F4).
  apply trim_fixed.
Qed.

End CleanerFacts.

(** ** The secret isolator *)

Module IsolatorFacts.
Import Cleaner Regex Isolator.
Local Open Scope list_scope.

Lemma detect_consistent t m found template acc :
  consistent t (detect m found template acc).
Proof.
  split; simpl; [discriminate|]. intros _ E.
  apply app_eq_nil in E as [_ E]. discriminate.
Qed.

Lemma fold_consistent (step : RedactResult -> Match -> RedactResult) t ms :
  (forall acc m, consistent t acc -> consistent t (step acc m)) ->
  forall acc, consistent t acc -> consistent t (fold_left step ms acc).
Proof.
  intros Hstep. induction ms as [|m ms IH]; intros acc H; simpl; [exact H|].
  apply IH, Hstep, H.
Qed.

Lemma redact_consistent cfg t : consistent t (redact cfg t).
Proof.
  unfold redact. cbv zeta.
  apply fold_consistent; [intros acc m H; apply detect_consistent|].
  apply fold_consistent; [intros acc m H; apply detect_consistent|].
  apply fold_consistent.
  { intros acc m H. unfold base58_step.
    destruct (_ && _); [exact H|].
    destruct (isLikelyPrivateKey _); [apply detect_consistent|exact H]. }
  apply fold_consistent.
  { intros acc m H. unfold seed_step. cbv zeta.
    destruct (mostly _ _); [apply detect_consistent|exact H]. }
  split; simpl; [auto|discriminate].
Qed.

(** redact reports what it does: when it returns redacted = false the
    text comes back as it was, redacted is true exactly when matches is
    not empty, and so a text in whose redaction containsSecrets finds
    nothing is redacted to itself. *)
Theorem redact_reports_every_change cfg t :
  (redacted (redact cfg t) = false -> clean (redact cfg t) = t) /\
  (redacted (redact cfg t) = true <-> matches (redact cfg t) <> []) /\
  (containsSecrets cfg (clean (redact cfg t)) = false ->
   clean (redact cfg (clean (redact cfg t))) = clean (redact cfg t)).
Proof.
  destruct (redact_consistent cfg t) as [Hf Ht]. split; [|split].
  - intros H. now apply Hf.
  - split; [exact Ht|]. intros Hm.
    destruct (redacted (redact cfg t)); [reflexivity|].
    elim Hm. now apply Hf.
  - unfold containsSecrets. intros H.
    now apply (redact_consistent cfg (clean (redact cfg t))).
Qed.

End IsolatorFacts.

(** ** The guard's redaction: redact, then log *)

Module OutputFacts.
Import AuditFacts AuditReads IsolatorFacts.
Local Open Scope list_scope.

(** redactOutput leaves a trace of every redaction and of nothing else:
    when it reports no secret the text comes back as it was and the log
    is untouched; when it reports some, the log holds a redact entry
    under the new id with that number of secrets. *)
Theorem redactOutput_logs_what_it_redacts g env t st :
  let out := fst (Guard.redactOutput g env t st) in
  let st' := snd (Guard.redactOutput g env t st) in
  Guard.spend st' = Guard.spend st /\
  (Guard.secretsRedacted out = 0 ->
   Guard.clean out = t /\ Guard.trail st' = Guard.trail st) /\
  (Guard.secretsRedacted out <> 0 ->
   exists e,
     Audit.getLog (Audit.uuid env) (Guard.trail st') = Some e /\
     Audit.action e = "redact" /\
     Audit.isolatorResult e
     = Some {| Audit.secretsRedacted := Guard.secretsRedacted out |}).
Proof.
  cbv zeta. unfold Guard.redactOutput. cbv zeta. cbn [fst snd].
  cbn [Guard.spend Guard.trail Guard.clean Guard.secretsRedacted].
  destruct (redact_consistent (Guard.isolator_config g) t) as [Hf Ht].
  split; [reflexivity|].
  destruct (Isolator.redacted (Isolator.redact (Guard.isolator_config g) t)).
  - split.
    + intros H0. specialize (Ht eq_refl).
      destruct (Isolator.matches _); [now elim Ht|discriminate].
    + intros _. unfold Audit.logRedaction. eexists.
      split; [apply getLog_log|]. split; reflexivity.
  - destruct (Hf eq_refl) as [Hc Hm]. split; [auto|].
    rewrite Hm. intros H. now elim H.
Qed.

End OutputFacts.
